(** * Personal Journal frontend: the API client and the application shell

    A shallow embedding of [journal_frontend/src/api/client.js] (base URL
    resolution, token storage, header construction, response handling, the
    [api] object) and of the state handlers of [App.js] (create, edit,
    update, delete of journal entries), with the properties the
    specification states about them. *)

From Stdlib Require Import ZArith String Ascii List Bool Lia.
From stdpp Require Import base option list gmap strings pretty.

Local Open Scope string_scope.
Local Open Scope Z_scope.

Set Warnings "-register-all".

(** ** JavaScript values

    The values that travel through the client are the ones [JSON.parse]
    produces, plus [undefined].  Numbers are the integer-valued ones (what
    identifiers and status codes are), in the range where JavaScript
    prints them as plain decimal digits; objects keep their properties in
    insertion order. *)

Inductive JsVal : Type :=
| JUndefined
| JNull
| JBool (b : bool)
| JNum (n : Z)
| JStr (s : string)
| JArr (items : list JsVal)
| JObj (fields : list (string * JsVal)).

(** ToBoolean: what [if (v)], [v && ...], [v || ...] and [!v] test. *)
Definition truthy (v : JsVal) : bool :=
  match v with
  | JUndefined | JNull => false
  | JBool b => b
  | JNum n => negb (n =? 0)
  | JStr s => negb (String.eqb s "")
  | JArr _ | JObj _ => true
  end.

(** ToString: what a template literal, [new Error(v)] and
    [localStorage.setItem(k, v)] apply to their argument.  An array joins
    its elements with commas, printing [null] and [undefined] elements as
    nothing; a plain object prints as [[object Object]]. *)
Fixpoint to_string (v : JsVal) : string :=
  match v with
  | JUndefined => "undefined"
  | JNull => "null"
  | JBool true => "true"
  | JBool false => "false"
  | JNum n => pretty n
  | JStr s => s
  | JArr items =>
      String.concat ","
        (List.map (fun x => match x with
                            | JUndefined | JNull => ""
                            | _ => to_string x
                            end) items)
  | JObj _ => "[object Object]"
  end.

(** Own property of an object, first binding of the key. *)
Fixpoint lookup_field (k : string) (fields : list (string * JsVal)) : option JsVal :=
  match fields with
  | [] => None
  | (k', v) :: rest => if String.eqb k' k then Some v else lookup_field k rest
  end.

(** Strict equality [===].  On primitives it compares values.  Arrays and
    objects are compared by reference in JavaScript; references are not
    part of [JsVal], so on them [strict_eq] compares contents, which holds
    whenever the two references are the same. *)
Fixpoint strict_eq (a b : JsVal) {struct a} : bool :=
  match a, b with
  | JUndefined, JUndefined => true
  | JNull, JNull => true
  | JBool x, JBool y => Bool.eqb x y
  | JNum x, JNum y => x =? y
  | JStr x, JStr y => String.eqb x y
  | JArr xs, JArr ys =>
      (fix all2 (l : list JsVal) (r : list JsVal) {struct l} : bool :=
         match l, r with
         | [], [] => true
         | x :: l', y :: r' => strict_eq x y && all2 l' r'
         | _, _ => false
         end) xs ys
  | JObj xs, JObj ys =>
      (fix all2 (l : list (string * JsVal)) (r : list (string * JsVal))
           {struct l} : bool :=
         match l, r with
         | [], [] => true
         | (k, x) :: l', (k', y) :: r' =>
             String.eqb k k' && strict_eq x y && all2 l' r'
         | _, _ => false
         end) xs ys
  | _, _ => false
  end.

(** ** Errors and results

    A thrown value is an [Error] object: [message] is always a string;
    [status] and [data] are the two properties [handleResponse] adds and are
    [undefined] on any other error. *)

Record JsError : Type := mkJsError {
  message : string;
  status : JsVal;
  data : JsVal
}.

(** [new Error(m)]: the message is [m] converted to a string. *)
Definition new_Error (m : JsVal) : JsError :=
  {| message := to_string m; status := JUndefined; data := JUndefined |}.

Definition TypeError (m : string) : JsError := new_Error (JStr m).

(** The outcome of an expression or of an awaited promise: a value, or a
    thrown error (a rejected promise). *)
Inductive Result (A : Type) : Type :=
| Ok (a : A)
| Throw (e : JsError).
Arguments Ok {A} a.
Arguments Throw {A} e.

Global Instance Result_ret : MRet Result := fun A a => Ok a.
Global Instance Result_bind : MBind Result := fun A B f m =>
  match m with
  | Ok a => f a
  | Throw e => Throw e
  end.
Global Instance Result_fmap : FMap Result := fun A B f m =>
  match m with
  | Ok a => Ok (f a)
  | Throw e => Throw e
  end.

(** [try { body } catch (e) { handler }], and [promise.catch(handler)]. *)
Definition try_catch {A : Type} (body : Result A) (handler : JsError -> Result A) : Result A :=
  match body with
  | Ok a => Ok a
  | Throw e => handler e
  end.

(** Reading a property named [k] that no built-in prototype defines
    ([detail], [access_token], [id], [title], [content], [items]): a
    TypeError on [null] and [undefined], the own property of an object,
    [undefined] on everything else. *)
Definition prop (v : JsVal) (k : string) : Result JsVal :=
  match v with
  | JUndefined | JNull =>
      Throw (TypeError ("Cannot read properties of " +:+ to_string v))
  | JObj fields => Ok (default JUndefined (lookup_field k fields))
  | _ => Ok JUndefined
  end.

(** [a && b]: [b] is evaluated only when [a] is truthy. *)
Definition js_and (a : JsVal) (b : Result JsVal) : Result JsVal :=
  if truthy a then b else Ok a.

(** [a || b] on a string with a string fallback. *)
Definition str_or (a b : string) : string :=
  if String.eqb a "" then b else a.

(** [haystack.includes(needle)]. *)
Fixpoint includes (haystack needle : string) : bool :=
  String.prefix needle haystack ||
  match haystack with
  | EmptyString => false
  | String _ rest => includes rest needle
  end.

(** White space that [trim] removes, within the ASCII range: TAB, LF, VT,
    FF, CR and SPACE. *)
Definition is_white_space (a : ascii) : bool :=
  let n := nat_of_ascii a in
  ((9 <=? n) && (n <=? 13))%nat || (n =? 32)%nat.

Fixpoint trimStart (s : string) : string :=
  match s with
  | EmptyString => EmptyString
  | String a rest => if is_white_space a then trimStart rest else s
  end.

Fixpoint trimEnd (s : string) : string :=
  match s with
  | EmptyString => EmptyString
  | String a rest =>
      match trimEnd rest with
      | EmptyString => if is_white_space a then EmptyString else String a EmptyString
      | t => String a t
      end
  end.

Definition trim (s : string) : string := trimEnd (trimStart s).

(** ** The platform: requests, responses, storage, network *)

(** The argument of [fetch].  [body] is the value handed to
    [JSON.stringify] ([None] when the request has no body). *)
Record Request : Type := mkRequest {
  url : string;
  method : string;
  headers : gmap string string;
  body : option JsVal;
  credentials : string;
  mode : string
}.

(** What [handleResponse] reads of a [Response]: the status line, the
    result of [headers.get("content-type")] ([None] for [null]), and the
    outcomes of its two body readers, [res.json()] and [res.text()]. *)
Record Response : Type := mkResponse {
  res_status : Z;
  res_statusText : string;
  res_content_type : option string;
  res_json : Result JsVal;
  res_text : Result string
}.

(** [res.ok]: the status is in the range 200-299. *)
Definition res_ok (res : Response) : bool :=
  (200 <=? res_status res) && (res_status res <=? 299).

(** The Web Storage interface, as far as the client uses it.  Every
    operation may throw. *)
Class Storage (St : Type) : Type := {
  getItem : St -> string -> Result (option string);
  setItem : St -> string -> string -> Result St;
  removeItem : St -> string -> Result St
}.

(** The browser's [localStorage].  When [denied], touching the global
    throws (storage disabled or absent); when [quota_exceeded], writing
    throws. *)
Record LocalStorage : Type := mkLocalStorage {
  items : gmap string string;
  denied : bool;
  quota_exceeded : bool
}.

Definition SecurityError : JsError := new_Error (JStr "The operation is insecure.").
Definition QuotaExceededError : JsError := new_Error (JStr "The quota has been exceeded.").

Global Instance LocalStorage_Storage : Storage LocalStorage := {
  getItem ls k :=
    if denied ls then Throw SecurityError else Ok (items ls !! k);
  setItem ls k v :=
    if denied ls then Throw SecurityError
    else if quota_exceeded ls then Throw QuotaExceededError
    else Ok (mkLocalStorage (<[k := v]> (items ls)) (denied ls) (quota_exceeded ls));
  removeItem ls k :=
    if denied ls then Throw SecurityError
    else Ok (mkLocalStorage (delete k (items ls)) (denied ls) (quota_exceeded ls))
}.

(** The build-time and run-time configuration [resolveBaseUrl] reads:
    [process.env], and [window.ENV] ([None] when there is no [window] or
    no truthy [ENV] on it). *)
Record Env : Type := mkEnv {
  process_env : gmap string string;
  window_ENV : option (gmap string string)
}.

(** [a || b] on values that are a string or [undefined]. *)
Definition opt_or (a b : option string) : option string :=
  match a with
  | Some s => if String.eqb s "" then b else a
  | None => b
  end.

Definition resolveBaseUrl (env : Env) : string :=
  let runtimeEnv := default ∅ (window_ENV env) in
  let envBase :=
    opt_or (opt_or (opt_or (process_env env !! "REACT_APP_API_BASE")
                           (runtimeEnv !! "REACT_APP_API_BASE"))
                   (process_env env !! "VITE_API_BASE"))
           (runtimeEnv !! "VITE_API_BASE") in
  match envBase with
  | Some s =>
      if negb (String.eqb s "") && negb (String.eqb (trim s) "")
      then s else "http://localhost:3001"
  | None => "http://localhost:3001"
  end.

(** The four places [resolveBaseUrl] reads, in the order of its [||]
    chain. *)
Definition base_url_sources (env : Env) : list (option string) :=
  let runtimeEnv := default ∅ (window_ENV env) in
  [ process_env env !! "REACT_APP_API_BASE";
    runtimeEnv !! "REACT_APP_API_BASE";
    process_env env !! "VITE_API_BASE";
    runtimeEnv !! "VITE_API_BASE" ].

(** A source that is not set, or set to a value [trim] empties. *)
Definition unset_or_blank (source : option string) : Prop :=
  match source with
  | None => True
  | Some s => trim s = ""
  end.

(** The first value that is not [undefined]. *)
Fixpoint first_defined (sources : list (option string)) : option string :=
  match sources with
  | [] => None
  | Some s :: _ => Some s
  | None :: rest => first_defined rest
  end.

Definition handleResponse (res : Response) : Result JsVal :=
  let contentType := default "" (res_content_type res) in
  let isJson := includes contentType "application/json" in
  body ← (if isJson
          then try_catch (res_json res) (fun _ => Ok (JObj []))
          else JStr <$> res_text res);
  if negb (res_ok res) then
    has_detail ← js_and (JBool isJson) (js_and body (prop body "detail"));
    msg ← (if truthy has_detail
           then prop body "detail"
           else Ok (JStr (str_or (res_statusText res) "Request failed")));
    Throw {| message := message (new_Error msg);
             status := JNum (res_status res);
             data := body |}
  else Ok body.

(** ** Effects

    The client runs against a world: the token store and the log of the
    requests sent so far.  A computation takes the world and returns its
    outcome with the world it leaves; a thrown error keeps the effects made
    before it. *)

Record World (St : Type) : Type := mkWorld {
  localStorage : St;
  sent : list Request
}.
Arguments mkWorld {St} _ _.
Arguments localStorage {St} _.
Arguments sent {St} _.

Definition Eff (St A : Type) : Type := World St -> Result A * World St.

Definition eff_ret {St A : Type} (a : A) : Eff St A := fun w => (Ok a, w).

Definition eff_bind {St A B : Type} (m : Eff St A) (k : A -> Eff St B) : Eff St B :=
  fun w =>
    match m w with
    | (Ok a, w') => k a w'
    | (Throw e, w') => (Throw e, w')
    end.

Notation "'let!' x ':=' m 'in' k" := (eff_bind m (fun x => k))
  (at level 10, x name, m at level 100, k at level 200, only parsing).

(** An expression that touches neither the store nor the network. *)
Definition lift {St A : Type} (r : Result A) : Eff St A := fun w => (r, w).

(** [try { body } catch (e) { handler }] around effects. *)
Definition eff_try {St A : Type} (body : Eff St A) (handler : JsError -> Eff St A) : Eff St A :=
  fun w =>
    match body w with
    | (Ok a, w') => (Ok a, w')
    | (Throw e, w') => handler e w'
    end.

Section Client.
Context {St : Type} `{!Storage St}.

(** The configuration the bundle was built and started with, and the
    network: the outcome of [fetch] for a request, given the requests
    sent before it ([Throw] for a transport failure). *)
Variable env : Env.
Variable net : list Request -> Request -> Result Response.

Definition API_BASE : string := resolveBaseUrl env.

Definition fetch (req : Request) : Eff St Response :=
  fun w => (net (sent w) req, mkWorld (localStorage w) (sent w ++ [req])).

Definition localStorage_getItem (k : string) : Eff St (option string) :=
  fun w => (getItem (localStorage w) k, w).

Definition localStorage_setItem (k v : string) : Eff St unit :=
  fun w =>
    match setItem (localStorage w) k v with
    | Ok ls' => (Ok tt, mkWorld ls' (sent w))
    | Throw e => (Throw e, w)
    end.

Definition localStorage_removeItem (k : string) : Eff St unit :=
  fun w =>
    match removeItem (localStorage w) k with
    | Ok ls' => (Ok tt, mkWorld ls' (sent w))
    | Throw e => (Throw e, w)
    end.

(** The stored token: a string, or [None] for [null]. *)
Definition getToken : Eff St (option string) :=
  eff_try (localStorage_getItem "auth_token") (fun _ => eff_ret None).

Definition setToken (token : JsVal) : Eff St unit :=
  eff_try (if truthy token
           then localStorage_setItem "auth_token" (to_string token)
           else localStorage_removeItem "auth_token")
          (fun _ => eff_ret tt).

Definition buildHeaders (authorized : bool) : Eff St (gmap string string) :=
  let headers : gmap string string := {[ "Content-Type" := "application/json" ]} in
  if authorized then
    let! token := getToken in
    match token with
    | Some t =>
        if negb (String.eqb t "")
        then eff_ret (<[ "Authorization" := "Bearer " +:+ t ]> headers)
        else eff_ret headers
    | None => eff_ret headers
    end
  else eff_ret headers.

Definition login (email password : string) : Eff St JsVal :=
  let! h := buildHeaders false in
  let! res := fetch (mkRequest (API_BASE +:+ "/auth/login") "POST" h
                       (Some (JObj [("email", JStr email); ("password", JStr password)]))
                       "include" "cors") in
  let! data := lift (handleResponse res) in
  let! has_token := lift (js_and data (prop data "access_token")) in
  let! _ := (if truthy has_token
             then let! token := lift (prop data "access_token") in setToken token
             else eff_ret tt) in
  eff_ret data.

Definition register (email password name : string) : Eff St JsVal :=
  let! h := buildHeaders false in
  let! res := fetch (mkRequest (API_BASE +:+ "/auth/register") "POST" h
                       (Some (JObj [("email", JStr email); ("password", JStr password);
                                    ("name", JStr name)]))
                       "include" "cors") in
  lift (handleResponse res).

Definition me : Eff St JsVal :=
  let! h := buildHeaders true in
  let! res := fetch (mkRequest (API_BASE +:+ "/auth/me") "GET" h None "include" "cors") in
  lift (handleResponse res).

Definition logout : Eff St unit := setToken JNull.

Definition listEntries : Eff St JsVal :=
  let! h := buildHeaders true in
  let! res := fetch (mkRequest (API_BASE +:+ "/entries") "GET" h None "include" "cors") in
  lift (handleResponse res).

Definition createEntry (title content : JsVal) : Eff St JsVal :=
  let! h := buildHeaders true in
  let! res := fetch (mkRequest (API_BASE +:+ "/entries") "POST" h
                       (Some (JObj [("title", title); ("content", content)]))
                       "include" "cors") in
  lift (handleResponse res).

Definition updateEntry (id : JsVal) (title content : JsVal) : Eff St JsVal :=
  let! h := buildHeaders true in
  let! res := fetch (mkRequest (API_BASE +:+ "/entries/" +:+ to_string id) "PUT" h
                       (Some (JObj [("title", title); ("content", content)]))
                       "include" "cors") in
  lift (handleResponse res).

Definition deleteEntry (id : JsVal) : Eff St JsVal :=
  let! h := buildHeaders true in
  let! res := fetch (mkRequest (API_BASE +:+ "/entries/" +:+ to_string id) "DELETE" h
                       None "include" "cors") in
  lift (handleResponse res).

Definition getApiBase : string := API_BASE.

(** The calls a user of [api] can make. *)
Inductive Call : Type :=
| CallLogin (email password : string)
| CallRegister (email password name : string)
| CallMe
| CallLogout
| CallListEntries
| CallCreateEntry (title content : JsVal)
| CallUpdateEntry (id title content : JsVal)
| CallDeleteEntry (id : JsVal).

Definition call (c : Call) : Eff St JsVal :=
  match c with
  | CallLogin email password => login email password
  | CallRegister email password name => register email password name
  | CallMe => me
  | CallLogout => let! _ := logout in eff_ret JUndefined
  | CallListEntries => listEntries
  | CallCreateEntry title content => createEntry title content
  | CallUpdateEntry id title content => updateEntry id title content
  | CallDeleteEntry id => deleteEntry id
  end.

(** [login] and [logout] are the two calls that write the token. *)
Definition writes_token (c : Call) : bool :=
  match c with
  | CallLogin _ _ | CallLogout => true
  | _ => false
  end.

(** The calls whose request is built with [buildHeaders(true)]. *)
Definition authorized_call (c : Call) : bool :=
  match c with
  | CallMe | CallListEntries | CallCreateEntry _ _ | CallUpdateEntry _ _ _
  | CallDeleteEntry _ => true
  | _ => false
  end.

(** A sequence of calls, each settled before the next starts, whatever
    its outcome: the world it leaves. *)
Fixpoint calls (cs : list Call) (w : World St) : World St :=
  match cs with
  | [] => w
  | c :: rest => calls rest (snd (call c w))
  end.

End Client.

(** Local storage that is neither disabled nor full. *)
Definition storage_works (ls : LocalStorage) : Prop :=
  denied ls = false /\ quota_exceeded ls = false.

(** Every access to the store throws. *)
Definition storage_throws {St : Type} `{!Storage St} (ls : St) : Prop :=
  (forall k, exists e, getItem ls k = Throw e) /\
  (forall k v, exists e, setItem ls k v = Throw e) /\
  (forall k, exists e, removeItem ls k = Throw e).

(** The header set of a request that carries no token. *)
Definition json_headers : gmap string string :=
  {[ "Content-Type" := "application/json" ]}.

(** ** The application shell: state and handlers of [App] *)

(** The entry being drafted: [id] is [null] in create mode and the
    identifier of the selected entry in edit mode. *)
Record Draft : Type := mkDraft {
  draft_id : JsVal;
  draft_title : JsVal;
  draft_content : JsVal
}.

(** The [useState] cells the entry handlers read and write. *)
Record AppState : Type := mkAppState {
  user : JsVal;
  entries : list JsVal;
  loading : bool;
  err : string;
  draft : Draft
}.

Definition empty_draft : Draft := mkDraft JNull (JStr "") (JStr "").

Definition setErr (m : string) (s : AppState) : AppState :=
  mkAppState (user s) (entries s) (loading s) m (draft s).
Definition setDraft (d : Draft) (s : AppState) : AppState :=
  mkAppState (user s) (entries s) (loading s) (err s) d.
Definition setEntries (es : list JsVal) (s : AppState) : AppState :=
  mkAppState (user s) es (loading s) (err s) (draft s).

(** [a || b] on values. *)
Definition js_or (a b : JsVal) : JsVal := if truthy a then a else b.

(** [prev.filter(keep)] and [prev.map(f)] with callbacks that may throw:
    the elements are visited in order and the first throw ends the call. *)
Fixpoint array_filter (keep : JsVal -> Result bool) (prev : list JsVal) : Result (list JsVal) :=
  match prev with
  | [] => Ok []
  | it :: rest =>
      k ← keep it;
      rest' ← array_filter keep rest;
      Ok (if k : bool then it :: rest' else rest')
  end.

Fixpoint array_map (f : JsVal -> Result JsVal) (prev : list JsVal) : Result (list JsVal) :=
  match prev with
  | [] => Ok []
  | it :: rest =>
      it' ← f it;
      rest' ← array_map f rest;
      Ok (it' :: rest')
  end.

Section App.
Context {St : Type} `{!Storage St}.
Variable env : Env.
Variable net : list Request -> Request -> Result Response.

(** A handler runs to completion on the state it was rendered with and
    returns the state after its updates.  [Throw] is an error that no
    [catch] of the handler sees: a state updater throwing while React
    applies it is outside the handler's [try]. *)

Definition onCreate (s : AppState) : Eff St AppState :=
  let s := setErr "" s in
  eff_try
    (let! created := createEntry env net (draft_title (draft s)) (draft_content (draft s)) in
     eff_ret (setEntries (created :: entries s) (setDraft empty_draft s)))
    (fun e1 => eff_ret (setErr (str_or (message e1) "Create failed") s)).

Definition onSelectEdit (entry : JsVal) (s : AppState) : Eff St AppState :=
  let! id := lift (prop entry "id") in
  let! title := lift (prop entry "title") in
  let! content := lift (prop entry "content") in
  eff_ret (setDraft (mkDraft id (js_or title (JStr "")) (js_or content (JStr ""))) s).

Definition onUpdate (s : AppState) : Eff St AppState :=
  if negb (truthy (draft_id (draft s))) then eff_ret s
  else
    let s := setErr "" s in
    let! outcome :=
      eff_try
        (let! updated := updateEntry env net (draft_id (draft s))
                           (draft_title (draft s)) (draft_content (draft s)) in
         eff_ret (inl updated))
        (fun e1 => eff_ret (inr (str_or (message e1) "Update failed"))) in
    match outcome with
    | inl updated =>
        let! es := lift (array_map
                           (fun it => id ← prop it "id";
                                      Ok (if strict_eq id (draft_id (draft s))
                                          then updated else it))
                           (entries s)) in
        eff_ret (setDraft empty_draft (setEntries es s))
    | inr m => eff_ret (setErr m s)
    end.

Definition onDelete (id : JsVal) (s : AppState) : Eff St AppState :=
  let s := setErr "" s in
  let! outcome :=
    eff_try
      (let! _ := deleteEntry env net id in eff_ret (inl tt))
      (fun e1 => eff_ret (inr (str_or (message e1) "Delete failed"))) in
  match outcome with
  | inl _ =>
      let! es := lift (array_filter
                         (fun it => id' ← prop it "id"; Ok (negb (strict_eq id' id)))
                         (entries s)) in
      eff_ret (setEntries es s)
  | inr m => eff_ret (setErr m s)
  end.

(** The three operations that change the list on the server, the client
    call each handler awaits, the handler, and the text it shows when
    the error has no message. *)
Inductive Mutation : Type :=
| Create
| Update
| Delete (id : JsVal).

Definition client_call (m : Mutation) (s : AppState) : Eff St JsVal :=
  match m with
  | Create => createEntry env net (draft_title (draft s)) (draft_content (draft s))
  | Update => updateEntry env net (draft_id (draft s))
                (draft_title (draft s)) (draft_content (draft s))
  | Delete id => deleteEntry env net id
  end.

Definition handler (m : Mutation) : AppState -> Eff St AppState :=
  match m with
  | Create => onCreate
  | Update => onUpdate
  | Delete id => onDelete id
  end.

Definition fallback_text (m : Mutation) : string :=
  match m with
  | Create => "Create failed"
  | Update => "Update failed"
  | Delete _ => "Delete failed"
  end.

(** The two Cancel buttons: [setDraft({ id: null, title: "", content: "" })]. *)
Definition onCancel (s : AppState) : Eff St AppState :=
  eff_ret (setDraft empty_draft s).

(** What the user can do on the entries screen.  The Edit and Delete
    buttons are rendered once per listed entry; [i] is the row. *)
Inductive Event : Type :=
| ClickEdit (i : nat)
| SubmitCreate
| SubmitUpdate
| ClickDelete (i : nat)
| ClickCancel.

Definition dispatch (ev : Event) (s : AppState) : Eff St AppState :=
  match ev with
  | ClickEdit i =>
      match entries s !! i with
      | Some entry => onSelectEdit entry s
      | None => eff_ret s
      end
  | SubmitCreate => onCreate s
  | SubmitUpdate => onUpdate s
  | ClickDelete i =>
      match entries s !! i with
      | Some entry => let! id := lift (prop entry "id") in onDelete id s
      | None => eff_ret s
      end
  | ClickCancel => onCancel s
  end.

(** The entries screen as first shown: the list as loaded, nothing
    drafted. *)
Definition loaded (u : JsVal) (es : list JsVal) : AppState :=
  mkAppState u es false "" empty_draft.

(** States reached from a freshly loaded screen through events that
    [allowed] admits and whose handler completes.  [seen] collects every
    entry that has been listed on the way, oldest first. *)
Inductive reachable (allowed : Event -> AppState -> Prop) :
  list JsVal -> AppState -> World St -> Prop :=
| reachable_loaded u es w : reachable allowed es (loaded u es) w
| reachable_step seen s w ev s' w' :
    reachable allowed seen s w ->
    allowed ev s ->
    dispatch ev s w = (Ok s', w') ->
    reachable allowed (seen ++ entries s')%list s' w'.

(** The draft invariant the specification states: in edit mode the
    draft names an entry of the current list. *)
Definition draft_refers_to_listed (s : AppState) : Prop :=
  draft_id (draft s) = JNull \/
  exists entry, In entry (entries s) /\ prop entry "id" = Ok (draft_id (draft s)).

(** The weaker reading: the draft names an entry that has been listed. *)
Definition draft_refers_to_seen (seen : list JsVal) (s : AppState) : Prop :=
  draft_id (draft s) = JNull \/
  exists entry, In entry seen /\ prop entry "id" = Ok (draft_id (draft s)).

(** The event deletes the entry that is being edited. *)
Definition deletes_edited (ev : Event) (s : AppState) : Prop :=
  match ev with
  | ClickDelete i =>
      exists entry id, entries s !! i = Some entry /\ prop entry "id" = Ok id /\
                       strict_eq (draft_id (draft s)) id = true
  | _ => False
  end.

End App.

(** ** The application shell: session, loading and the auth forms *)

Definition setUser (u : JsVal) (s : AppState) : AppState :=
  mkAppState u (entries s) (loading s) (err s) (draft s).
Definition setLoading (b : bool) (s : AppState) : AppState :=
  mkAppState (user s) (entries s) b (err s) (draft s).

(** The first render: nobody signed in, nothing listed. *)
Definition initial : AppState := mkAppState JNull [] false "" empty_draft.

(** [authView], and the two credential forms. *)
Inductive AuthView : Type :=
| LoginView
| RegisterView.

Record LoginForm : Type := mkLoginForm {
  login_email : string;
  login_password : string
}.

Record RegisterForm : Type := mkRegisterForm {
  register_name : string;
  register_email : string;
  register_password : string
}.

(** The whole of [App]'s state: the cells of [AppState] and the cells of
    the authentication card. *)
Record Shell : Type := mkShell {
  app : AppState;
  authView : AuthView;
  loginForm : LoginForm;
  registerForm : RegisterForm
}.

Definition setApp (s : AppState) (sh : Shell) : Shell :=
  mkShell s (authView sh) (loginForm sh) (registerForm sh).

(** [Array.isArray(list) ? list : (list.items || [])]: the value
    [loadEntries] hands to [setEntries]. *)
Definition listed (list : JsVal) : Result JsVal :=
  match list with
  | JArr _ => Ok list
  | _ => items ← prop list "items"; Ok (js_or items (JArr []))
  end.

(** Whether a state cell keeps its value when set to [b]: primitives are
    compared by value; an array or object that comes out of a response is
    a new reference, never the one the cell held. *)
Definition same_value (a b : JsVal) : bool :=
  match b with
  | JArr _ | JObj _ => false
  | _ => strict_eq a b
  end.

Section Session.
Context {St : Type} `{!Storage St}.
Variable env : Env.
Variable net : list Request -> Request -> Result Response.

Definition loadMe (s : AppState) : Eff St AppState :=
  let s := setErr "" s in
  eff_try
    (let! profile := me env net in eff_ret (setUser profile s))
    (fun _ => eff_ret s).

(** [setEntries] is given whatever [listed] returns.  A value that is not
    an array cannot be rendered: [entries.map] is not a function, and the
    render that follows throws. *)
Definition loadEntries (s : AppState) : Eff St AppState :=
  let s := setErr "" (setLoading true s) in
  let! outcome :=
    eff_try
      (let! list := listEntries env net in
       let! value := lift (listed list) in
       eff_ret (inl value))
      (fun e => eff_ret (inr (str_or (message e) "Failed to load entries"))) in
  match outcome with
  | inl (JArr es) => eff_ret (setLoading false (setEntries es s))
  | inl _ => lift (Throw (TypeError "entries.map is not a function"))
  | inr m => eff_ret (setLoading false (setErr m s))
  end.

(** [useEffect(() => { if (user) loadEntries(); }, [user])], after a
    render in which [user] was [before] in the previous one. *)
Definition user_effect (before : JsVal) (s : AppState) : Eff St AppState :=
  if same_value before (user s) then eff_ret s
  else if truthy (user s) then loadEntries s
  else eff_ret s.

(** The mount effect, [loadMe().then(() => { if (user) loadEntries(); })],
    whose [user] is the one of the first render, followed by the [user]
    effect of the render [loadMe] causes. *)
Definition onMount : Eff St AppState :=
  let! s := loadMe initial in
  let! s := (if truthy (user initial) then loadEntries s else eff_ret s) in
  user_effect (user initial) s.

Definition onLogin (sh : Shell) : Eff St Shell :=
  let s := setErr "" (app sh) in
  eff_try
    (let! _ := login env net (login_email (loginForm sh))
                 (login_password (loginForm sh)) in
     let! s' := loadMe s in
     eff_ret (setApp s' sh))
    (fun e1 => eff_ret (setApp (setErr (str_or (message e1) "Login failed") s) sh)).

(** Submitting the login form, with the [user] effect of the render the
    handler causes. *)
Definition submitLogin (sh : Shell) : Eff St Shell :=
  let! sh' := onLogin sh in
  let! s := user_effect (user (app sh)) (app sh') in
  eff_ret (setApp s sh').

Definition onRegister (sh : Shell) : Eff St Shell :=
  let s := setErr "" (app sh) in
  eff_try
    (let! _ := register env net (register_email (registerForm sh))
                 (register_password (registerForm sh))
                 (register_name (registerForm sh)) in
     eff_ret (mkShell s LoginView
                (mkLoginForm (register_email (registerForm sh))
                   (register_password (registerForm sh)))
                (registerForm sh)))
    (fun e1 =>
       eff_ret (setApp (setErr (str_or (message e1) "Registration failed") s) sh)).

Definition onLogout (s : AppState) : Eff St AppState :=
  let! _ := logout in
  eff_ret (setEntries [] (setUser JNull s)).

End Session.

(** The requests [login] and [register] hand to [fetch]: their headers
    are those of [buildHeaders(false)]. *)
Definition login_request (env : Env) (email password : string) : Request :=
  mkRequest (API_BASE env +:+ "/auth/login") "POST" json_headers
    (Some (JObj [("email", JStr email); ("password", JStr password)]))
    "include" "cors".

Definition register_request (env : Env) (email password name : string) : Request :=
  mkRequest (API_BASE env +:+ "/auth/register") "POST" json_headers
    (Some (JObj [("email", JStr email); ("password", JStr password);
                 ("name", JStr name)]))
    "include" "cors".

(** The first source of the [||] chain that is a non-empty string. *)
Fixpoint first_nonempty (sources : list (option string)) : option string :=
  match sources with
  | [] => None
  | Some s :: rest => if String.eqb s "" then first_nonempty rest else Some s
  | None :: rest => first_nonempty rest
  end.

(** ** Sample inputs *)

(** A FastAPI validation failure: [detail] is a list of objects. *)
Definition validation_failure : Response :=
  let body := JObj [("detail", JArr [JObj [("loc", JArr [JStr "body"; JStr "title"]);
                                           ("msg", JStr "field required")]])] in
  mkResponse 422 "Unprocessable Entity" (Some "application/json") (Ok body) (Ok "").

(** An HTTP/2 response has no status text. *)
Definition bad_gateway_h2 : Response :=
  mkResponse 502 "" (Some "text/html") (Throw (new_Error (JStr "Unexpected token <")))
    (Ok "<html>Bad Gateway</html>").

(** A build without configuration, an empty working store, and a store
    whose every access throws. *)
Definition local_env : Env := mkEnv ∅ None.
Definition fresh_store : LocalStorage := mkLocalStorage ∅ false false.
Definition denied_store : LocalStorage := mkLocalStorage ∅ true false.

(** A backend that answers every request with a login success carrying
    [token]. *)
Definition login_ok_net (token : JsVal) : list Request -> Request -> Result Response :=
  fun _ _ =>
    Ok (mkResponse 200 "OK" (Some "application/json")
          (Ok (JObj [("access_token", token); ("token_type", JStr "bearer")]))
          (Ok "")).

(** Two listed entries, and a backend that accepts every request: a
    DELETE is confirmed, any other request is answered with an entry. *)
Definition monday : JsVal :=
  JObj [("id", JNum 1); ("title", JStr "Monday"); ("content", JStr "Rain.")].
Definition tuesday : JsVal :=
  JObj [("id", JNum 2); ("title", JStr "Tuesday"); ("content", JStr "Sun.")].
Definition wednesday : JsVal :=
  JObj [("id", JNum 3); ("title", JStr "Wednesday"); ("content", JStr "Wind.")].

Definition accepting_net : list Request -> Request -> Result Response :=
  fun _ req =>
    if String.eqb (method req) "DELETE"
    then Ok (mkResponse 200 "OK" (Some "application/json")
               (Ok (JObj [("ok", JBool true)])) (Ok ""))
    else Ok (mkResponse 201 "Created" (Some "application/json") (Ok wednesday) (Ok "")).

(** A backend that cannot be reached, and one that rejects the session. *)
Definition unreachable_net : list Request -> Request -> Result Response :=
  fun _ _ => Throw (TypeError "Failed to fetch").
Definition rejecting_net : list Request -> Request -> Result Response :=
  fun _ _ =>
    Ok (mkResponse 401 "Unauthorized" (Some "application/json")
          (Ok (JObj [("detail", JStr "Not authenticated")])) (Ok "")).

(** A backend that knows one session: the login answers with the token
    ["abc"]; a request that carries it is answered with the profile, or
    with a page of two entries when it asks for the list; any other
    request is rejected. *)
Definition ann : JsVal :=
  JObj [("id", JNum 9); ("email", JStr "ann@example.org"); ("name", JStr "Ann")].

Definition session_net : list Request -> Request -> Result Response :=
  fun _ req =>
    if String.eqb (url req) "http://localhost:3001/auth/login"
    then Ok (mkResponse 200 "OK" (Some "application/json")
               (Ok (JObj [("access_token", JStr "abc")])) (Ok ""))
    else
      match headers req !! "Authorization" with
      | Some "Bearer abc" =>
          if String.eqb (url req) "http://localhost:3001/entries"
          then Ok (mkResponse 200 "OK" (Some "application/json")
                     (Ok (JObj [("items", JArr [monday; tuesday])])) (Ok ""))
          else Ok (mkResponse 200 "OK" (Some "application/json") (Ok ann) (Ok ""))
      | _ =>
          Ok (mkResponse 401 "Unauthorized" (Some "application/json")
                (Ok (JObj [("detail", JStr "Not authenticated")])) (Ok ""))
      end.

Definition signed_out : Shell :=
  mkShell initial LoginView (mkLoginForm "ann@example.org" "pw")
    (mkRegisterForm "" "" "").

(** * Properties *)

(** ** Values and strings *)

Example to_string_samples :
  to_string (JNum 42) = "42" /\ to_string (JNum 0) = "0" /\
  to_string (JNum (-7)) = "-7" /\
  to_string (JArr [JNum 1; JNull; JStr "a"]) = "1,,a" /\
  to_string (JArr [JObj [("msg", JStr "m")]]) = "[object Object]".
Proof. repeat split; reflexivity. Qed.

Example trim_samples :
  trim "  http://h  " = "http://h" /\ trim "   " = "" /\ trim "a b" = "a b".
Proof. repeat split; reflexivity. Qed.

Example includes_samples :
  includes "application/json; charset=utf-8" "application/json" = true /\
  includes "text/html" "application/json" = false /\
  includes "" "application/json" = false.
Proof. repeat split; reflexivity. Qed.

Lemma str_or_nonempty a b : b <> "" -> str_or a b <> "".
Proof.
  unfold str_or. destruct (String.eqb_spec a ""); congruence.
Qed.

Lemma str_or_left a b : a <> "" -> str_or a b = a.
Proof.
  unfold str_or. destruct (String.eqb_spec a ""); congruence.
Qed.

(** Only objects have a truthy property. *)
Lemma prop_truthy_object v k x :
  prop v k = Ok x -> truthy x = true -> truthy v = true.
Proof.
  destruct v; simpl; intros Hp Ht; try reflexivity; try discriminate;
    inversion Hp; subst; discriminate.
Qed.

(** ** [handleResponse] *)

Section HandleResponse.
Variable res : Response.

Local Abbreviation isJson :=
  (includes (default "" (res_content_type res)) "application/json").

(** A success status returns the parsed body. *)
Lemma handleResponse_ok_json body :
  res_ok res = true -> isJson = true -> res_json res = Ok body ->
  handleResponse res = Ok body.
Proof.
  unfold handleResponse. intros Hok Hj Hb.
  rewrite Hj, Hb. simpl. rewrite Hok. reflexivity.
Qed.

(** The error thrown on a JSON body with a truthy [detail]. *)
Lemma handleResponse_detail body X :
  res_ok res = false -> isJson = true -> res_json res = Ok body ->
  prop body "detail" = Ok X -> truthy X = true ->
  handleResponse res =
    Throw (mkJsError (to_string X) (JNum (res_status res)) body).
Proof.
  unfold handleResponse. intros Hok Hj Hb Hp Ht.
  rewrite Hj, Hb. simpl. rewrite Hok. simpl.
  unfold js_and. simpl. rewrite (prop_truthy_object _ _ _ Hp Ht), Hp.
  simpl. rewrite Ht. simpl. reflexivity.
Qed.

(** The error thrown when nothing truthy is found under [detail]. *)
Lemma handleResponse_no_detail body :
  res_ok res = false ->
  (if isJson then try_catch (res_json res) (fun _ => Ok (JObj []))
   else JStr <$> res_text res) = Ok body ->
  (isJson = true -> truthy body = true ->
   exists X, prop body "detail" = Ok X /\ truthy X = false) ->
  handleResponse res =
    Throw (mkJsError (str_or (res_statusText res) "Request failed")
             (JNum (res_status res)) body).
Proof.
  unfold handleResponse. intros Hok Hb Hd.
  rewrite Hb. simpl. rewrite Hok. simpl. unfold js_and.
  destruct (includes _ _) eqn:Hj; simpl; [|reflexivity].
  destruct (truthy body) eqn:Htb.
  - destruct (Hd eq_refl eq_refl) as (X & Hp & Hx). rewrite Hp. simpl.
    rewrite Hx. reflexivity.
  - simpl. rewrite Htb. reflexivity.
Qed.


(** C5, as amended.  A non-2xx response whose content type does not
    indicate JSON always makes [handleResponse] throw; once the body text
    has been read, the error's [message] is the HTTP status text when
    that is not empty and ["Request failed"] when it is, with the status
    and the text as [status] and [data]. *)
Theorem handleResponse_non_json_message :
  res_ok res = false ->
  isJson = false ->
  exists e, handleResponse res = Throw e /\
    forall t, res_text res = Ok t ->
      message e = (if String.eqb (res_statusText res) ""
                   then "Request failed" else res_statusText res) /\
      status e = JNum (res_status res) /\
      data e = JStr t.
Proof.
  intros Hok Hj. destruct (res_text res) as [t|e0] eqn:Ht.
  - eexists. split.
    + apply handleResponse_no_detail with (body := JStr t); try assumption.
      * rewrite Hj, Ht. reflexivity.
      * congruence.
    + intros t' Ht'. inversion Ht'; subst. repeat split.
  - exists e0. split.
    + unfold handleResponse. rewrite Hj, Ht. reflexivity.
    + discriminate.
Qed.

(** C10.  On a non-2xx response whose content type indicates JSON and
    whose body does not parse, the parse failure is not propagated: the
    error thrown carries the empty object as [data], the HTTP status, and
    as [message] the status text, or ["Request failed"] when the status
    text is empty. *)
Theorem handleResponse_unparsable_json e0 :
  res_ok res = false ->
  isJson = true ->
  res_json res = Throw e0 ->
  handleResponse res =
    Throw (mkJsError (if String.eqb (res_statusText res) ""
                      then "Request failed" else res_statusText res)
             (JNum (res_status res)) (JObj [])).
Proof.
  intros Hok Hj Hb.
  apply handleResponse_no_detail; try assumption.
  - rewrite Hj, Hb. reflexivity.
  - intros _ _. exists JUndefined. split; reflexivity.
Qed.

End HandleResponse.



(** C5 fails as stated: with an empty status text the message is the
    fixed fallback, not the status text. *)
Lemma handleResponse_non_json_not_statusText :
  res_ok bad_gateway_h2 = false /\
  includes (default "" (res_content_type bad_gateway_h2)) "application/json" = false /\
  exists e, handleResponse bad_gateway_h2 = Throw e /\
            message e = "Request failed" /\
            message e <> res_statusText bad_gateway_h2.
Proof.
  repeat split. eexists. repeat split. discriminate.
Qed.

Lemma handleResponse_non_json_message_witness :
  let res := mkResponse 404 "Not Found" (Some "text/plain")
               (Throw (new_Error (JStr "Unexpected token N"))) (Ok "Not Found") in
  exists e, handleResponse res = Throw e /\ message e = "Not Found".
Proof.
  intros res.
  destruct (handleResponse_non_json_message res eq_refl eq_refl) as (e & He & Hm).
  exists e. split; [assumption|].
  destruct (Hm "Not Found" eq_refl) as (-> & _). reflexivity.
Defined.

Lemma handleResponse_unparsable_json_witness :
  handleResponse
    (mkResponse 500 "Internal Server Error" (Some "application/json")
       (Throw (new_Error (JStr "Unexpected end of JSON input"))) (Ok "{"))
  = Throw (mkJsError "Internal Server Error" (JNum 500) (JObj [])).
Proof.
  apply (handleResponse_unparsable_json
           (mkResponse 500 "Internal Server Error" (Some "application/json")
              (Throw (new_Error (JStr "Unexpected end of JSON input"))) (Ok "{"))
           (new_Error (JStr "Unexpected end of JSON input"))); reflexivity.
Defined.

(** ** [resolveBaseUrl] *)

Lemma opt_or_blank a b :
  unset_or_blank a -> unset_or_blank b -> unset_or_blank (opt_or a b).
Proof.
  destruct a as [s|]; simpl; [|tauto].
  destruct (String.eqb s ""); simpl; tauto.
Qed.

Lemma resolve_blank (envBase : option string) :
  unset_or_blank envBase ->
  match envBase with
  | Some s =>
      if negb (String.eqb s "") && negb (String.eqb (trim s) "")
      then s else "http://localhost:3001"
  | None => "http://localhost:3001"
  end = "http://localhost:3001".
Proof.
  destruct envBase as [s|]; simpl; [|reflexivity].
  intros ->. simpl. rewrite andb_false_r. reflexivity.
Qed.

(** A value of white space only is truthy, so the [||] chain stops at it. *)
Lemma opt_or_stops s b : s <> "" -> opt_or (Some s) b = Some s.
Proof.
  intros Hs. simpl. destruct (String.eqb_spec s ""); congruence.
Qed.



(** A configured value is returned as it is, and an empty first source is
    passed over for a later one. *)
Example resolveBaseUrl_configured :
  resolveBaseUrl (mkEnv {[ "REACT_APP_API_BASE" := "https://j.example/api" ]} None)
  = "https://j.example/api" /\
  resolveBaseUrl (mkEnv {[ "REACT_APP_API_BASE" := "" ]}
                    (Some {[ "VITE_API_BASE" := "http://10.0.0.2:3001" ]}))
  = "http://10.0.0.2:3001".
Proof. split; vm_compute; reflexivity. Qed.

(** ** The token: [getToken], [setToken], [buildHeaders] *)

Section Token.
Context {St : Type} `{!Storage St}.

(** Reading the token leaves the world as it is and never throws. *)
Lemma getToken_total (w : World St) :
  exists token, getToken w = (Ok token, w).
Proof.
  unfold getToken, eff_try, localStorage_getItem.
  destruct (getItem (localStorage w) "auth_token"); eauto.
Qed.

Lemma getToken_storage (w w' : World St) :
  localStorage w = localStorage w' -> fst (getToken w) = fst (getToken w').
Proof.
  unfold getToken, eff_try, localStorage_getItem. intros ->.
  destruct (getItem (localStorage w') "auth_token"); reflexivity.
Qed.

(** Writing the token never throws and sends nothing. *)
Lemma setToken_total token (w : World St) :
  exists w', setToken token w = (Ok tt, w') /\ sent w' = sent w.
Proof.
  unfold setToken, eff_try, localStorage_setItem, localStorage_removeItem.
  destruct (truthy token).
  - destruct (setItem _ _ _); simpl; eauto.
  - destruct (removeItem _ _); simpl; eauto.
Qed.

Lemma buildHeaders_total authorized (w : World St) :
  exists h, buildHeaders authorized w = (Ok h, w).
Proof.
  unfold buildHeaders. destruct authorized; [|unfold eff_ret; eauto].
  unfold eff_bind. destruct (getToken_total w) as (token & ->).
  destruct token as [t|]; [destruct (negb _)|]; unfold eff_ret; eauto.
Qed.

Lemma buildHeaders_storage authorized (w w' : World St) :
  localStorage w = localStorage w' ->
  fst (buildHeaders authorized w) = fst (buildHeaders authorized w').
Proof.
  intros Hls. unfold buildHeaders. destruct authorized; [|reflexivity].
  unfold eff_bind. pose proof (getToken_storage w w' Hls) as Hg.
  destruct (getToken_total w) as (t1 & H1), (getToken_total w') as (t2 & H2).
  rewrite H1, H2 in *. simpl in Hg. inversion Hg; subst.
  destruct t2 as [t|]; [destruct (negb _)|]; reflexivity.
Qed.

(** The headers built from a given stored token. *)
Lemma buildHeaders_token (w : World St) token :
  getToken w = (Ok token, w) ->
  buildHeaders true w =
    (Ok match token with
        | Some t => if String.eqb t "" then json_headers
                    else <[ "Authorization" := "Bearer " +:+ t ]> json_headers
        | None => json_headers
        end, w).
Proof.
  intros Hg. unfold buildHeaders, eff_bind. rewrite Hg.
  destruct token as [t|]; [destruct (String.eqb t "")|]; reflexivity.
Qed.

Variable env : Env.
Variable net : list Request -> Request -> Result Response.

(** Every call but [login] and [logout] has the shape: build the
    headers, send one request, hand the response to [handleResponse]. *)
Lemma request_storage authorized (mk : gmap string string -> Request) (w : World St) :
  localStorage
    (snd ((let! h := buildHeaders authorized in
           let! res := fetch net (mk h) in
           lift (handleResponse res)) w))
  = localStorage w.
Proof.
  unfold eff_bind. destruct (buildHeaders_total authorized w) as (h & ->).
  unfold fetch, lift. simpl. destruct (net (sent w) (mk h)); reflexivity.
Qed.

(** A call of the request shape sends exactly one request, built from
    the headers of the moment. *)
Lemma request_sent authorized (mk : gmap string string -> Request) (w : World St) :
  exists h,
    buildHeaders authorized w = (Ok h, w) /\
    sent (snd ((let! h := buildHeaders authorized in
                let! res := fetch net (mk h) in
                lift (handleResponse res)) w))
    = (sent w ++ [mk h])%list.
Proof.
  destruct (buildHeaders_total authorized w) as (h & Hh). exists h.
  split; [exact Hh|]. unfold eff_bind. rewrite Hh.
  unfold fetch, lift. simpl. destruct (net (sent w) (mk h)); reflexivity.
Qed.

(** An authorized call sends one request, under the headers of the
    moment. *)
Lemma call_sent c (w : World St) h :
  authorized_call c = true ->
  buildHeaders true w = (Ok h, w) ->
  exists req, sent (snd (call env net c w)) = (sent w ++ [req])%list /\
              headers req = h.
Proof.
  intros Hc Hh.
  assert (Hshape : forall mk : gmap string string -> Request,
             exists req,
               sent (snd ((let! h := buildHeaders true in
                           let! res := fetch net (mk h) in
                           lift (handleResponse res)) w))
               = (sent w ++ [req])%list /\ headers req = headers (mk h)).
  { intros mk. destruct (request_sent true mk w) as (h' & Hh' & Hsent).
    rewrite Hh in Hh'. inversion Hh'; subst h'. eauto. }
  destruct c; try discriminate.
  - exact (Hshape (fun h => mkRequest (API_BASE env +:+ "/auth/me") "GET" h None
                              "include" "cors")).
  - exact (Hshape (fun h => mkRequest (API_BASE env +:+ "/entries") "GET" h None
                              "include" "cors")).
  - exact (Hshape (fun h => mkRequest (API_BASE env +:+ "/entries") "POST" h
                              (Some (JObj [("title", title); ("content", content)]))
                              "include" "cors")).
  - exact (Hshape (fun h => mkRequest (API_BASE env +:+ "/entries/" +:+ to_string id)
                              "PUT" h
                              (Some (JObj [("title", title); ("content", content)]))
                              "include" "cors")).
  - exact (Hshape (fun h => mkRequest (API_BASE env +:+ "/entries/" +:+ to_string id)
                              "DELETE" h None "include" "cors")).
Qed.

Lemma call_storage c (w : World St) :
  writes_token c = false ->
  localStorage (snd (call env net c w)) = localStorage w.
Proof.
  destruct c; simpl; try discriminate; intros _; apply request_storage.
Qed.

Lemma calls_storage cs (w : World St) :
  Forall (fun c => writes_token c = false) cs ->
  localStorage (calls env net cs w) = localStorage w.
Proof.
  intros Hcs. revert w. induction Hcs as [|c cs Hc _ IH]; intros w; simpl.
  - reflexivity.
  - rewrite IH. apply call_storage. exact Hc.
Qed.

(** Headers built after calls that do not write the token are the
    headers that would have been built before them. *)
Lemma buildHeaders_after_calls cs (w : World St) h :
  Forall (fun c => writes_token c = false) cs ->
  buildHeaders true w = (Ok h, w) ->
  buildHeaders true (calls env net cs w) = (Ok h, calls env net cs w).
Proof.
  intros Hcs Hh.
  pose proof (buildHeaders_storage true (calls env net cs w) w
                (calls_storage cs w Hcs)) as Heq.
  destruct (buildHeaders_total true (calls env net cs w)) as (h' & Hh').
  rewrite Hh, Hh' in Heq. simpl in Heq. inversion Heq; subst. exact Hh'.
Qed.


End Token.

(** ** Login, logout and the bearer header, on the browser's store *)

Section Bearer.
Variable env : Env.
Variable net : list Request -> Request -> Result Response.

Lemma getToken_items (w : World LocalStorage) :
  denied (localStorage w) = false ->
  getToken w = (Ok (items (localStorage w) !! "auth_token"), w).
Proof.
  intros Hd. unfold getToken, eff_try, localStorage_getItem. simpl.
  rewrite Hd. reflexivity.
Qed.

(** What a successful login leaves in a working store. *)
Lemma login_stores_token email password (w w' : World LocalStorage) data t :
  storage_works (localStorage w) ->
  login env net email password w = (Ok data, w') ->
  prop data "access_token" = Ok (JStr t) ->
  t <> "" ->
  localStorage w' =
    mkLocalStorage (<[ "auth_token" := t ]> (items (localStorage w))) false false.
Proof.
  intros (Hd & Hq) Hlogin Hp Ht.
  assert (Htt : truthy (JStr t) = true).
  { simpl. destruct (String.eqb_spec t ""); [congruence | reflexivity]. }
  unfold login, eff_bind in Hlogin.
  destruct (buildHeaders_total false w) as (h & Hh). rewrite Hh in Hlogin.
  unfold fetch, lift in Hlogin. simpl in Hlogin.
  destruct (net (sent w) _) as [res|e]; [|discriminate].
  destruct (handleResponse res) as [data'|e]; [|discriminate].
  destruct (js_and data' (prop data' "access_token")) as [a|e] eqn:Ha;
    [|discriminate].
  set (w1 := mkWorld (localStorage w) _) in Hlogin.
  destruct (truthy a) eqn:Hta.
  - destruct (prop data' "access_token") as [token|e] eqn:Hp'; [|discriminate].
    destruct (setToken_total token w1) as (w2 & Hs & _).
    pose proof Hs as Hs'. rewrite Hs in Hlogin. unfold eff_ret in Hlogin.
    inversion Hlogin; subst data' w2. rewrite Hp in Hp'. inversion Hp'; subst token.
    unfold setToken, eff_try, localStorage_setItem in Hs'. rewrite Htt in Hs'.
    simpl in Hs'. rewrite Hd, Hq in Hs'. inversion Hs'. reflexivity.
  - unfold eff_ret in Hlogin. inversion Hlogin; subst data' w'.
    unfold js_and in Ha. rewrite (prop_truthy_object _ _ _ Hp Htt), Hp in Ha.
    inversion Ha; subst a. congruence.
Qed.

(** C2, as amended.  After a login that succeeds with a non-empty
    [access_token] t in its response body, made while the store accepts
    the write, every authorized header set built before the next login
    or logout holds the Authorization header ["Bearer " + t], next to
    the JSON content type, and every authorized call made in that time
    sends its request under that header. *)
Theorem login_then_bearer email password (w w' : World LocalStorage) data t :
  storage_works (localStorage w) ->
  login env net email password w = (Ok data, w') ->
  prop data "access_token" = Ok (JStr t) ->
  t <> "" ->
  forall cs, Forall (fun c => writes_token c = false) cs ->
    let w1 := calls env net cs w' in
    (exists h, buildHeaders true w1 = (Ok h, w1) /\
               h = <[ "Authorization" := "Bearer " +:+ t ]> json_headers /\
               h !! "Authorization" = Some ("Bearer " +:+ t)) /\
    (forall c, authorized_call c = true ->
       exists req, sent (snd (call env net c w1)) = (sent w1 ++ [req])%list /\
                   headers req !! "Authorization" = Some ("Bearer " +:+ t)).
Proof.
  intros Hw Hlogin Hp Ht cs Hcs w1.
  pose proof (login_stores_token _ _ _ _ _ _ Hw Hlogin Hp Ht) as Hls.
  assert (Hh : buildHeaders true w1
               = (Ok (<[ "Authorization" := "Bearer " +:+ t ]> json_headers), w1)).
  { apply buildHeaders_after_calls; [exact Hcs|].
    rewrite (buildHeaders_token w' (Some t)).
    - destruct (String.eqb_spec t ""); [congruence | reflexivity].
    - rewrite getToken_items; rewrite Hls; simpl; [|reflexivity].
      rewrite lookup_insert_eq. reflexivity. }
  split.
  - eexists. split; [exact Hh|]. split; [reflexivity | apply lookup_insert_eq].
  - intros c Hc. destruct (call_sent env net c w1 _ Hc Hh) as (req & Hsent & Hreq).
    exists req. split; [exact Hsent|]. rewrite Hreq. apply lookup_insert_eq.
Qed.

(** C7.  [logout] returns normally and clears the stored token:
    [getToken] then returns [null], every authorized header set built
    before the next login holds the JSON content type only, and every
    authorized call made in that time sends its request under these
    headers, without an Authorization header. *)
Theorem logout_then_no_bearer (w : World LocalStorage) :
  exists w', logout w = (Ok tt, w') /\
    getToken w' = (Ok None, w') /\
    (denied (localStorage w) = false ->
     items (localStorage w') !! "auth_token" = None) /\
    forall cs, Forall (fun c => writes_token c = false) cs ->
      let w1 := calls env net cs w' in
      buildHeaders true w1 = (Ok json_headers, w1) /\
      json_headers !! "Authorization" = None /\
      (forall c, authorized_call c = true ->
         exists req, sent (snd (call env net c w1)) = (sent w1 ++ [req])%list /\
                     headers req = json_headers).
Proof.
  assert (Hafter : forall w' : World LocalStorage,
             getToken w' = (Ok None, w') ->
             forall cs, Forall (fun c => writes_token c = false) cs ->
               let w1 := calls env net cs w' in
               buildHeaders true w1 = (Ok json_headers, w1) /\
               json_headers !! "Authorization" = None /\
               (forall c, authorized_call c = true ->
                  exists req, sent (snd (call env net c w1)) = (sent w1 ++ [req])%list /\
                              headers req = json_headers)).
  { intros w' Hg cs Hcs w1.
    assert (Hh : buildHeaders true w1 = (Ok json_headers, w1)).
    { apply buildHeaders_after_calls; [exact Hcs|].
      rewrite (buildHeaders_token w' None Hg). reflexivity. }
    split; [exact Hh|]. split; [reflexivity|].
    intros c Hc. exact (call_sent env net c w1 _ Hc Hh). }
  unfold logout, setToken, eff_try, localStorage_removeItem. simpl.
  destruct (denied (localStorage w)) eqn:Hd.
  - exists w. split; [reflexivity|].
    assert (Hg : getToken w = (Ok None, w)).
    { unfold getToken, eff_try, localStorage_getItem. simpl. rewrite Hd. reflexivity. }
    split; [exact Hg|]. split; [discriminate|].
    exact (Hafter w Hg).
  - eexists. split; [reflexivity|].
    match goal with |- getToken ?w1 = _ /\ _ =>
      assert (Hg : getToken w1 = (Ok None, w1)) end.
    { rewrite getToken_items; simpl; [|reflexivity].
      rewrite lookup_delete_eq. reflexivity. }
    split; [exact Hg|]. split; [intros _; simpl; apply lookup_delete_eq|].
    exact (Hafter _ Hg).
Qed.

End Bearer.

(** C2 fails as stated, in two ways: an empty [access_token] is not
    stored, and a store that throws keeps nothing; either way the login
    succeeds and the next authorized header set has no Authorization
    header. *)
Lemma login_without_bearer :
  (exists data w',
     login local_env (login_ok_net (JStr "")) "ann@example.org" "pw"
       (mkWorld fresh_store []) = (Ok data, w') /\
     prop data "access_token" = Ok (JStr "") /\
     exists h, buildHeaders true w' = (Ok h, w') /\ h !! "Authorization" = None) /\
  (exists data w',
     login local_env (login_ok_net (JStr "abc")) "ann@example.org" "pw"
       (mkWorld denied_store []) = (Ok data, w') /\
     prop data "access_token" = Ok (JStr "abc") /\
     exists h, buildHeaders true w' = (Ok h, w') /\ h !! "Authorization" = None).
Proof.
  split; do 2 eexists; (split; [vm_compute; reflexivity|]);
    (split; [reflexivity|]); eexists; (split; [vm_compute; reflexivity|]);
    vm_compute; reflexivity.
Qed.

Lemma login_then_bearer_witness :
  exists w' h,
    snd (login local_env (login_ok_net (JStr "abc")) "ann@example.org" "pw"
           (mkWorld fresh_store [])) = w' /\
    buildHeaders true (calls local_env (login_ok_net (JStr "abc"))
                         [CallMe; CallListEntries] w')
    = (Ok h, calls local_env (login_ok_net (JStr "abc")) [CallMe; CallListEntries] w') /\
    h !! "Authorization" = Some "Bearer abc".
Proof.
  eexists.
  destruct (login_then_bearer local_env (login_ok_net (JStr "abc"))
              "ann@example.org" "pw" (mkWorld fresh_store [])
              (snd (login local_env (login_ok_net (JStr "abc")) "ann@example.org" "pw"
                      (mkWorld fresh_store [])))
              (JObj [("access_token", JStr "abc"); ("token_type", JStr "bearer")])
              "abc")
    with (cs := [CallMe; CallListEntries]) as ((h & Hh & _ & Hl) & _).
  - split; reflexivity.
  - vm_compute. reflexivity.
  - reflexivity.
  - discriminate.
  - repeat constructor.
  - exists h. split; [reflexivity|]. split; assumption.
Defined.

Lemma logout_then_no_bearer_witness :
  exists w',
    logout (mkWorld (mkLocalStorage {[ "auth_token" := "abc" ]} false false) [])
    = (Ok tt, w') /\
    buildHeaders true (calls local_env (login_ok_net JNull) [CallMe] w')
    = (Ok json_headers, calls local_env (login_ok_net JNull) [CallMe] w').
Proof.
  destruct (logout_then_no_bearer local_env (login_ok_net JNull)
              (mkWorld (mkLocalStorage {[ "auth_token" := "abc" ]} false false) []))
    as (w' & Hl & _ & _ & Hh).
  exists w'. split; [exact Hl|].
  apply (Hh [CallMe]). repeat constructor.
Defined.


(** ** The entry handlers of [App] *)

Section Handlers.
Context {St : Type} `{!Storage St}.
Variable env : Env.
Variable net : list Request -> Request -> Result Response.

(** C8.  When the create call returns the entry [created], the list
    afterwards is [created] followed by the prior list in its order, the
    draft is reset, and the handler has sent one request only, the POST
    that created the entry: the list is not fetched again. *)
Theorem onCreate_prepends (s : AppState) (w w' : World St) created :
  createEntry env net (draft_title (draft s)) (draft_content (draft s)) w
  = (Ok created, w') ->
  exists s',
    onCreate env net s w = (Ok s', w') /\
    entries s' = created :: entries s /\
    entries s' !! 0%nat = Some created /\
    (forall i, entries s' !! S i = entries s !! i) /\
    draft s' = empty_draft /\
    exists req, sent w' = (sent w ++ [req])%list /\
                method req = "POST" /\
                url req = API_BASE env +:+ "/entries".
Proof.
  intros Hc. unfold onCreate, eff_try, eff_bind. simpl. rewrite Hc.
  eexists. split; [reflexivity|]. simpl. repeat split.
  unfold createEntry in Hc.
  destruct (request_sent net true
              (fun h => mkRequest (API_BASE env +:+ "/entries") "POST" h
                          (Some (JObj [("title", draft_title (draft s));
                                       ("content", draft_content (draft s))]))
                          "include" "cors") w) as (h & _ & Hsent).
  rewrite Hc in Hsent. simpl in Hsent. eexists. split; [exact Hsent|].
  split; reflexivity.
Qed.

(** C4.  When the client call of a create, update or delete throws, the
    handler completes, shows the error's message, or the operation's
    fixed text when the message is empty, and leaves the entries list,
    the draft and the rest of the state as they were. *)
Theorem mutation_failure_keeps_state m (s : AppState) (w w' : World St) e :
  (m = Update -> truthy (draft_id (draft s)) = true) ->
  client_call env net m s w = (Throw e, w') ->
  exists s',
    handler env net m s w = (Ok s', w') /\
    err s' = (if String.eqb (message e) "" then fallback_text m else message e) /\
    err s' <> "" /\
    entries s' = entries s /\
    draft s' = draft s /\
    user s' = user s /\
    loading s' = loading s.
Proof.
  intros Hmode Hcall.
  assert (Hne : forall b, b <> "" -> str_or (message e) b <> "")
    by (intros; apply str_or_nonempty; assumption).
  destruct m as [| |id]; simpl in Hcall; simpl handler.
  - unfold onCreate, eff_try, eff_bind. simpl. rewrite Hcall.
    eexists. split; [reflexivity|]. simpl. repeat split. apply Hne. discriminate.
  - unfold onUpdate. rewrite (Hmode eq_refl). simpl.
    unfold eff_try, eff_bind. simpl. rewrite Hcall.
    eexists. split; [reflexivity|]. simpl. repeat split. apply Hne. discriminate.
  - unfold onDelete, eff_try, eff_bind. simpl. rewrite Hcall.
    eexists. split; [reflexivity|]. simpl. repeat split. apply Hne. discriminate.
Qed.

End Handlers.

(** The handlers on a two-entry list, against a backend that accepts:
    an update replaces the entry in place and resets the draft, a delete
    removes the row, select-edit loads the draft from the row. *)
Example onUpdate_replaces :
  fst (dispatch local_env accepting_net SubmitUpdate
         (mkAppState JNull [monday; tuesday] false "old error"
            (mkDraft (JNum 1) (JStr "Wednesday") (JStr "Wind.")))
         (mkWorld fresh_store []))
  = Ok (mkAppState JNull [wednesday; tuesday] false "" empty_draft).
Proof. vm_compute. reflexivity. Qed.

Example onDelete_removes :
  fst (dispatch local_env accepting_net (ClickDelete 1)
         (loaded JNull [monday; tuesday]) (mkWorld fresh_store []))
  = Ok (loaded JNull [monday]).
Proof. vm_compute. reflexivity. Qed.

Example onSelectEdit_loads :
  fst (dispatch local_env accepting_net (ClickEdit 0)
         (loaded JNull [JObj [("id", JNum 7); ("title", JNull)]])
         (mkWorld fresh_store []))
  = Ok (mkAppState JNull [JObj [("id", JNum 7); ("title", JNull)]] false ""
          (mkDraft (JNum 7) (JStr "") (JStr ""))).
Proof. vm_compute. reflexivity. Qed.

(** The request an update sends once a token is stored. *)
Example updateEntry_request :
  sent (snd (updateEntry local_env accepting_net (JNum 1) (JStr "T") (JStr "C")
               (mkWorld (mkLocalStorage {[ "auth_token" := "abc" ]} false false) [])))
  = [ mkRequest "http://localhost:3001/entries/1" "PUT"
        (<[ "Authorization" := "Bearer abc" ]> json_headers)
        (Some (JObj [("title", JStr "T"); ("content", JStr "C")]))
        "include" "cors" ].
Proof. vm_compute. reflexivity. Qed.

(** ** The draft and the list *)

Lemma array_filter_keeps keep prev es entry :
  array_filter keep prev = Ok es ->
  In entry prev -> keep entry = Ok true -> In entry es.
Proof.
  revert es. induction prev as [|it rest IH]; intros es Hf Hin Hk; [destruct Hin|].
  simpl in Hf. unfold mbind, Result_bind in Hf.
  destruct (keep it) as [k|] eqn:Hkit; [|discriminate].
  destruct (array_filter keep rest) as [rest'|] eqn:Hrest; [|discriminate].
  inversion Hf; subst es. destruct Hin as [->|Hin].
  - rewrite Hk in Hkit. inversion Hkit; subst k. left. reflexivity.
  - specialize (IH rest' eq_refl Hin Hk). destruct k; [right|]; exact IH.
Qed.

Section DraftInvariant.
Context {St : Type} `{!Storage St}.
Variable env : Env.
Variable net : list Request -> Request -> Result Response.

Lemma loaded_draft_refers u es : draft_refers_to_listed (loaded u es).
Proof. left. reflexivity. Qed.

Lemma onSelectEdit_draft_refers entry (s s' : AppState) (w w' : World St) :
  In entry (entries s) ->
  onSelectEdit entry s w = (Ok s', w') ->
  draft_refers_to_listed s'.
Proof.
  intros Hin Hsel. unfold onSelectEdit, eff_bind, lift, eff_ret in Hsel.
  destruct (prop entry "id") as [id|] eqn:Hid; [|discriminate].
  destruct (prop entry "title"); [|discriminate].
  destruct (prop entry "content"); [|discriminate].
  inversion Hsel; subst. right. exists entry. simpl. split; assumption.
Qed.

Lemma onCreate_draft_refers (s s' : AppState) (w w' : World St) :
  draft_refers_to_listed s ->
  onCreate env net s w = (Ok s', w') ->
  draft_refers_to_listed s'.
Proof.
  intros Hinv Hc. unfold onCreate, eff_try, eff_bind, eff_ret in Hc.
  destruct (createEntry _ _ _ _ _) as [[created|e] w1];
    inversion Hc; subst; [left; reflexivity | exact Hinv].
Qed.

Lemma onUpdate_draft_refers (s s' : AppState) (w w' : World St) :
  draft_refers_to_listed s ->
  onUpdate env net s w = (Ok s', w') ->
  draft_refers_to_listed s'.
Proof.
  intros Hinv Hu. unfold onUpdate in Hu.
  destruct (negb (truthy (draft_id (draft s)))).
  { inversion Hu; subst. exact Hinv. }
  unfold eff_try, eff_bind, eff_ret, lift in Hu.
  destruct (updateEntry _ _ _ _ _ _) as [[updated|e] w1].
  - destruct (array_map _ _) as [es|]; inversion Hu; subst. left. reflexivity.
  - inversion Hu; subst. exact Hinv.
Qed.

Lemma onDelete_draft_refers id (s s' : AppState) (w w' : World St) :
  draft_refers_to_listed s ->
  strict_eq (draft_id (draft s)) id = false ->
  onDelete env net id s w = (Ok s', w') ->
  draft_refers_to_listed s'.
Proof.
  intros Hinv Hne Hd. unfold onDelete, eff_try, eff_bind, eff_ret, lift in Hd.
  destruct (deleteEntry _ _ _ _) as [[confirmed|e] w1].
  - destruct (array_filter _ _) as [es|] eqn:Hf; inversion Hd; subst.
    destruct Hinv as [Hnull | (entry & Hin & Hid)]; [left; exact Hnull|].
    right. exists entry. simpl. split; [|exact Hid].
    apply (array_filter_keeps _ _ _ _ Hf Hin).
    simpl in Hid. rewrite Hid. unfold mbind, Result_bind. simpl in Hne.
    rewrite Hne. reflexivity.
  - inversion Hd; subst. exact Hinv.
Qed.

(** One event keeps the invariant, unless it deletes the edited entry. *)
Lemma dispatch_draft_refers ev (s s' : AppState) (w w' : World St) :
  draft_refers_to_listed s ->
  ~ deletes_edited ev s ->
  dispatch env net ev s w = (Ok s', w') ->
  draft_refers_to_listed s'.
Proof.
  intros Hinv Hsafe Hstep. destruct ev as [i| | |i|]; simpl in Hstep.
  - destruct (entries s !! i) as [entry|] eqn:Hi.
    + apply (onSelectEdit_draft_refers entry s s' w w'); [|exact Hstep].
      apply list_elem_of_In, list_elem_of_lookup. exists i. exact Hi.
    + inversion Hstep; subst. exact Hinv.
  - exact (onCreate_draft_refers s s' w w' Hinv Hstep).
  - exact (onUpdate_draft_refers s s' w w' Hinv Hstep).
  - destruct (entries s !! i) as [entry|] eqn:Hi.
    + unfold eff_bind, lift in Hstep.
      destruct (prop entry "id") as [id|] eqn:Hid; [|discriminate].
      apply (onDelete_draft_refers id s s' w w' Hinv); [|exact Hstep].
      destruct (strict_eq (draft_id (draft s)) id) eqn:Heq; [|reflexivity].
      exfalso. apply Hsafe. simpl. exists entry, id. auto.
    + inversion Hstep; subst. exact Hinv.
  - inversion Hstep; subst. left. reflexivity.
Qed.

(** What one event does to the draft: it resets it, leaves it, or loads
    it from a listed entry. *)
Lemma dispatch_draft ev (s s' : AppState) (w w' : World St) :
  dispatch env net ev s w = (Ok s', w') ->
  draft_id (draft s') = JNull \/
  draft s' = draft s \/
  exists entry, In entry (entries s) /\ prop entry "id" = Ok (draft_id (draft s')).
Proof.
  intros Hstep. destruct ev as [i| | |i|]; simpl in Hstep.
  - destruct (entries s !! i) as [entry|] eqn:Hi.
    + right. right. exists entry. split.
      * apply list_elem_of_In, list_elem_of_lookup. exists i. exact Hi.
      * unfold onSelectEdit, eff_bind, lift, eff_ret in Hstep.
        destruct (prop entry "id") as [id|]; [|discriminate].
        destruct (prop entry "title"); [|discriminate].
        destruct (prop entry "content"); [|discriminate].
        inversion Hstep; subst. reflexivity.
    + inversion Hstep; subst. auto.
  - unfold onCreate, eff_try, eff_bind, eff_ret in Hstep.
    destruct (createEntry _ _ _ _ _) as [[created|e] w1];
      inversion Hstep; subst; auto.
  - unfold onUpdate in Hstep.
    destruct (negb (truthy (draft_id (draft s)))).
    { inversion Hstep; subst. auto. }
    unfold eff_try, eff_bind, eff_ret, lift in Hstep.
    destruct (updateEntry _ _ _ _ _ _) as [[updated|e] w1].
    + destruct (array_map _ _) as [es|]; inversion Hstep; subst. auto.
    + inversion Hstep; subst. auto.
  - destruct (entries s !! i) as [entry|] eqn:Hi.
    + unfold eff_bind, lift in Hstep.
      destruct (prop entry "id") as [id|]; [|discriminate].
      unfold onDelete, eff_try, eff_bind, eff_ret, lift in Hstep.
      destruct (deleteEntry _ _ _ _) as [[confirmed|e] w1].
      * destruct (array_filter _ _) as [es|]; inversion Hstep; subst. auto.
      * inversion Hstep; subst. auto.
    + inversion Hstep; subst. auto.
  - inversion Hstep; subst. auto.
Qed.

(** The entries on screen are among those seen. *)
Lemma reachable_entries_seen allowed seen (s : AppState) (w : World St) :
  reachable env net allowed seen s w ->
  forall entry, In entry (entries s) -> In entry seen.
Proof.
  destruct 1 as [u es w | seen s w ev s' w' _ _ _]; intros entry Hin.
  - exact Hin.
  - apply in_or_app. right. exact Hin.
Qed.


End DraftInvariant.



Lemma onCreate_prepends_witness :
  exists s' w',
    onCreate local_env accepting_net
      (mkAppState JNull [monday; tuesday] false ""
         (mkDraft JNull (JStr "Wednesday") (JStr "Wind.")))
      (mkWorld fresh_store []) = (Ok s', w') /\
    entries s' = [wednesday; monday; tuesday] /\
    length (sent w') = 1%nat.
Proof.
  destruct (onCreate_prepends local_env accepting_net
              (mkAppState JNull [monday; tuesday] false ""
                 (mkDraft JNull (JStr "Wednesday") (JStr "Wind.")))
              (mkWorld fresh_store [])
              (snd (createEntry local_env accepting_net (JStr "Wednesday") (JStr "Wind.")
                      (mkWorld fresh_store [])))
              wednesday)
    as (s' & Hc & He & _ & _ & _ & req & Hsent & _).
  - vm_compute. reflexivity.
  - exists s'. eexists. split; [exact Hc|]. split; [exact He|].
    rewrite Hsent. reflexivity.
Defined.

Lemma mutation_failure_keeps_state_witness :
  let s := mkAppState JNull [monday; tuesday] false ""
             (mkDraft (JNum 1) (JStr "Monday") (JStr "Storm.")) in
  let w := mkWorld fresh_store [] in
  (exists s' w', handler local_env rejecting_net Update s w = (Ok s', w') /\
                 err s' = "Not authenticated" /\ entries s' = [monday; tuesday]) /\
  (exists s' w', handler local_env unreachable_net (Delete (JNum 2)) s w = (Ok s', w') /\
                 err s' = "Failed to fetch" /\ entries s' = [monday; tuesday]).
Proof.
  intros s w. split.
  - destruct (mutation_failure_keeps_state local_env rejecting_net Update s w
                (snd (client_call local_env rejecting_net Update s w))
                (mkJsError "Not authenticated" (JNum 401)
                   (JObj [("detail", JStr "Not authenticated")])))
      as (s' & Hh & Herr & _ & Hes & _).
    + reflexivity.
    + vm_compute. reflexivity.
    + exists s'. eexists. split; [exact Hh|]. split; assumption.
  - destruct (mutation_failure_keeps_state local_env unreachable_net (Delete (JNum 2)) s w
                (snd (client_call local_env unreachable_net (Delete (JNum 2)) s w))
                (TypeError "Failed to fetch"))
      as (s' & Hh & Herr & _ & Hes & _).
    + discriminate.
    + vm_compute. reflexivity.
    + exists s'. eexists. split; [exact Hh|]. split; assumption.
Defined.

(** * Further properties of the client *)

(** ** What [handleResponse] returns and what it throws *)

(** X1.  Once the body has been read to [body] (the parsed JSON, the
    empty object when a JSON body does not parse, or the text),
    [handleResponse] returns [body] on a 2xx status, and on any other
    status throws an error that carries the numeric status as [status]
    and [body] as [data]. *)
Theorem handleResponse_contract (res : Response) body :
  (if includes (default "" (res_content_type res)) "application/json"
   then try_catch (res_json res) (fun _ => Ok (JObj []))
   else JStr <$> res_text res) = Ok body ->
  (res_ok res = true -> handleResponse res = Ok body) /\
  (res_ok res = false ->
   exists e, handleResponse res = Throw e /\
             status e = JNum (res_status res) /\ data e = body).
Proof.
  intros Hbody. unfold handleResponse. rewrite Hbody. simpl. split; intros Hok.
  - rewrite Hok. reflexivity.
  - rewrite Hok. simpl. unfold js_and.
    destruct (includes _ _); simpl.
    + destruct (truthy body) eqn:Htb.
      * destruct body; try discriminate; simpl;
          try match goal with
              | |- context [truthy ?d] => destruct (truthy d)
              end; eexists; repeat split.
      * simpl. rewrite Htb. eexists. repeat split.
    + eexists. repeat split.
Qed.

Lemma handleResponse_contract_witness :
  handleResponse (mkResponse 204 "No Content" (Some "application/json")
                    (Throw (new_Error (JStr "Unexpected end of JSON input"))) (Ok ""))
  = Ok (JObj []) /\
  exists e, handleResponse (mkResponse 503 "Service Unavailable" (Some "text/plain")
                              (Throw (new_Error (JStr "Unexpected token"))) (Ok "busy"))
            = Throw e /\ status e = JNum 503 /\ data e = JStr "busy".
Proof.
  split.
  - apply (handleResponse_contract
             (mkResponse 204 "No Content" (Some "application/json")
                (Throw (new_Error (JStr "Unexpected end of JSON input"))) (Ok ""))
             (JObj [])); reflexivity.
  - apply (handleResponse_contract
             (mkResponse 503 "Service Unavailable" (Some "text/plain")
                (Throw (new_Error (JStr "Unexpected token"))) (Ok "busy"))
             (JStr "busy")); reflexivity.
Defined.

(** ** [resolveBaseUrl]: precedence, and what it never returns *)

Lemma first_nonempty_opt_or a b rest :
  first_nonempty (opt_or a b :: rest) = first_nonempty (a :: b :: rest).
Proof.
  destruct a as [s|]; simpl; [|reflexivity].
  destruct (String.eqb s "") eqn:Hs; simpl; [|rewrite Hs]; reflexivity.
Qed.

(** The [||] chain picks the first source that is a non-empty string. *)
Lemma resolveBaseUrl_chain env :
  resolveBaseUrl env =
  match first_nonempty (base_url_sources env) with
  | Some s => if String.eqb (trim s) "" then "http://localhost:3001" else s
  | None => "http://localhost:3001"
  end.
Proof.
  unfold resolveBaseUrl, base_url_sources.
  set (a := process_env env !! "REACT_APP_API_BASE").
  set (b := default ∅ (window_ENV env) !! "REACT_APP_API_BASE").
  set (c := process_env env !! "VITE_API_BASE").
  set (d := default ∅ (window_ENV env) !! "VITE_API_BASE").
  clearbody a b c d.
  assert (Hnon : forall o : option string,
             match o with
             | Some s => if negb (String.eqb s "") && negb (String.eqb (trim s) "")
                         then s else "http://localhost:3001"
             | None => "http://localhost:3001"
             end =
             match first_nonempty [o] with
             | Some s => if String.eqb (trim s) "" then "http://localhost:3001" else s
             | None => "http://localhost:3001"
             end).
  { intros [s|]; simpl; [|reflexivity].
    destruct (String.eqb s ""); simpl; [reflexivity|].
    destruct (String.eqb (trim s) ""); reflexivity. }
  rewrite Hnon, !first_nonempty_opt_or. reflexivity.
Qed.




(** ** The calls of [api]: what they send and what they store *)

Lemma prefix_append (a b : string) : String.prefix a (a +:+ b) = true.
Proof.
  induction a as [|c a IH]; simpl; [destruct b; reflexivity|].
  destruct (ascii_dec c c) as [_|Hne]; [exact IH | congruence].
Qed.

Lemma js_and_prop_total data k :
  exists v, js_and data (prop data k) = Ok v /\
            (truthy v = true -> prop data k = Ok v).
Proof.
  unfold js_and. destruct (truthy data) eqn:Ht.
  - destruct data; try discriminate; simpl; eauto.
  - exists data. split; [reflexivity|]. congruence.
Qed.

Section Calls.
Context {St : Type} `{!Storage St}.
Variable env : Env.
Variable net : list Request -> Request -> Result Response.

Lemma buildHeaders_false (w : World St) :
  buildHeaders false w = (Ok json_headers, w).
Proof. reflexivity. Qed.

Lemma buildHeaders_content_type authorized (w : World St) h :
  buildHeaders authorized w = (Ok h, w) ->
  h !! "Content-Type" = Some "application/json".
Proof.
  destruct authorized.
  - destruct (getToken_total w) as (token & Hg).
    rewrite (buildHeaders_token w token Hg). intros Hh. inversion Hh; subst h.
    destruct token as [t|]; [destruct (String.eqb t "")|]; reflexivity.
  - rewrite buildHeaders_false. intros Hh. inversion Hh; subst h. reflexivity.
Qed.

(** The outcome and the world of a call of the request shape. *)
Lemma request_run authorized (mk : gmap string string -> Request) (w : World St) :
  exists h,
    buildHeaders authorized w = (Ok h, w) /\
    (let! h := buildHeaders authorized in
     let! res := fetch net (mk h) in
     lift (handleResponse res)) w
    = (net (sent w) (mk h) ≫= handleResponse,
       mkWorld (localStorage w) (sent w ++ [mk h])).
Proof.
  destruct (buildHeaders_total authorized w) as (h & Hh). exists h.
  split; [exact Hh|]. unfold eff_bind. rewrite Hh.
  unfold fetch, lift. simpl. destruct (net (sent w) (mk h)); reflexivity.
Qed.

(** [login] sends its one request, and then either leaves the store
    alone or hands the token of the response to [setToken]. *)
Lemma login_run email password (w : World St) :
  let w1 := mkWorld (localStorage w) (sent w ++ [login_request env email password]) in
  (exists e, login env net email password w = (Throw e, w1)) \/
  (exists data, login env net email password w = (Ok data, w1) /\
                forall token, prop data "access_token" = Ok token -> truthy token = false) \/
  (exists data token w2,
     login env net email password w = (Ok data, w2) /\
     prop data "access_token" = Ok token /\ truthy token = true /\
     setToken token w1 = (Ok tt, w2)).
Proof.
  intros w1. unfold login, eff_bind. rewrite buildHeaders_false.
  unfold fetch, lift. simpl. fold json_headers.
  change (mkWorld (localStorage w) _) with w1.
  destruct (net (sent w) _) as [res|e]; [|left; eauto].
  destruct (handleResponse res) as [data|e]; [|left; eauto].
  destruct (js_and_prop_total data "access_token") as (v & Hv & Hprop).
  rewrite Hv. destruct (truthy v) eqn:Htv.
  - right. right. rewrite (Hprop eq_refl).
    destruct (setToken_total v w1) as (w2 & Hs & _). rewrite Hs.
    exists data, v, w2. unfold eff_ret. auto.
  - right. left. exists data. split; [reflexivity|].
    intros token Htok. unfold js_and in Hv.
    destruct (truthy data) eqn:Htd.
    + rewrite Htok in Hv. inversion Hv; subst. exact Htv.
    + destruct (truthy token) eqn:Htt; [|reflexivity].
      rewrite (prop_truthy_object _ _ _ Htok Htt) in Htd. discriminate.
Qed.

(** X5.  A login that fails, by a transport error or a non-2xx answer,
    leaves the token store exactly as it was: a session already stored
    survives.  It has sent one request, the POST of the credentials, whose
    headers hold the JSON content type only, whatever token is stored. *)
Theorem login_failure_keeps_store email password (w w' : World St) e :
  login env net email password w = (Throw e, w') ->
  localStorage w' = localStorage w /\
  sent w' = (sent w ++ [login_request env email password])%list /\
  headers (login_request env email password) !! "Authorization" = None /\
  fst (buildHeaders true w') = fst (buildHeaders true w).
Proof.
  intros Hlogin.
  destruct (login_run email password w)
    as [(e' & Hrun) | [(data & Hrun & _) | (data & token & w2 & Hrun & _)]];
    rewrite Hrun in Hlogin; inversion Hlogin; subst.
  split; [reflexivity|]. split; [reflexivity|]. split; [reflexivity|].
  apply buildHeaders_storage. reflexivity.
Qed.

(** X6.  [register] never writes the token store, whatever the answer
    holds (an [access_token] included), and its one request carries the
    JSON content type only, whatever token is stored. *)
Theorem register_keeps_store email password name (w : World St) :
  exists outcome,
    register env net email password name w
    = (outcome,
       mkWorld (localStorage w)
         (sent w ++ [register_request env email password name])) /\
    headers (register_request env email password name) !! "Authorization" = None.
Proof.
  destruct (request_run false
              (fun h => mkRequest (API_BASE env +:+ "/auth/register") "POST" h
                          (Some (JObj [("email", JStr email);
                                       ("password", JStr password);
                                       ("name", JStr name)]))
                          "include" "cors") w) as (h & Hh & Hrun).
  rewrite buildHeaders_false in Hh. inversion Hh; subst h.
  eexists. split; [exact Hrun | reflexivity].
Qed.

(** X7.  Every call of [api] but [logout] sends exactly one request,
    whatever its outcome: to a URL under the resolved base, with
    [credentials: "include"], [mode: "cors"] and the JSON content type.
    [logout] sends nothing. *)
Theorem call_sends_one_request c (w : World St) :
  if match c with CallLogout => true | _ => false end
  then sent (snd (call env net c w)) = sent w
  else exists req,
         sent (snd (call env net c w)) = (sent w ++ [req])%list /\
         String.prefix (getApiBase env) (url req) = true /\
         credentials req = "include" /\
         mode req = "cors" /\
         headers req !! "Content-Type" = Some "application/json".
Proof.
  assert (Hshape : forall authorized (mk : gmap string string -> Request),
             (forall h, String.prefix (getApiBase env) (url (mk h)) = true /\
                        credentials (mk h) = "include" /\ mode (mk h) = "cors" /\
                        headers (mk h) = h) ->
             exists req,
               sent (snd ((let! h := buildHeaders authorized in
                           let! res := fetch net (mk h) in
                           lift (handleResponse res)) w))
               = (sent w ++ [req])%list /\
               String.prefix (getApiBase env) (url req) = true /\
               credentials req = "include" /\ mode req = "cors" /\
               headers req !! "Content-Type" = Some "application/json").
  { intros authorized mk Hmk.
    destruct (request_run authorized mk w) as (h & Hh & Hrun).
    destruct (Hmk h) as (Hu & Hc & Hm & Hhd).
    exists (mk h). rewrite Hrun. simpl. repeat split; try assumption.
    rewrite Hhd. exact (buildHeaders_content_type authorized w h Hh). }
  assert (Hpre : forall path, String.prefix (getApiBase env) (API_BASE env +:+ path) = true)
    by (intros; apply prefix_append).
  destruct c as [email password| email password name | | | |title content
                 |id title content|id].
  - exists (login_request env email password).
    split; [|repeat split; apply Hpre].
    destruct (login_run email password w)
      as [(e' & Hrun) | [(data & Hrun & _) | (data & token & w2 & Hrun & _ & _ & Hset)]];
      simpl call; rewrite Hrun; try reflexivity.
    destruct (setToken_total token
                (mkWorld (localStorage w)
                   (sent w ++ [login_request env email password])))
      as (w3 & Hs & Hsent).
    rewrite Hs in Hset. inversion Hset; subst w3. exact Hsent.
  - apply (Hshape false (fun h => mkRequest (API_BASE env +:+ "/auth/register") "POST" h
                                    (Some (JObj [("email", JStr email);
                                                 ("password", JStr password);
                                                 ("name", JStr name)]))
                                    "include" "cors")).
    intros h. repeat split. apply Hpre.
  - apply (Hshape true (fun h => mkRequest (API_BASE env +:+ "/auth/me") "GET" h None
                                   "include" "cors")).
    intros h. repeat split. apply Hpre.
  - simpl. unfold eff_bind, logout.
    destruct (setToken_total JNull w) as (w' & Hs & Hsent). rewrite Hs. exact Hsent.
  - apply (Hshape true (fun h => mkRequest (API_BASE env +:+ "/entries") "GET" h None
                                   "include" "cors")).
    intros h. repeat split. apply Hpre.
  - apply (Hshape true (fun h => mkRequest (API_BASE env +:+ "/entries") "POST" h
                                   (Some (JObj [("title", title); ("content", content)]))
                                   "include" "cors")).
    intros h. repeat split. apply Hpre.
  - apply (Hshape true (fun h => mkRequest (API_BASE env +:+ "/entries/" +:+ to_string id)
                                   "PUT" h
                                   (Some (JObj [("title", title); ("content", content)]))
                                   "include" "cors")).
    intros h. repeat split. apply Hpre.
  - apply (Hshape true (fun h => mkRequest (API_BASE env +:+ "/entries/" +:+ to_string id)
                                   "DELETE" h None "include" "cors")).
    intros h. repeat split. apply Hpre.
Qed.

End Calls.

Lemma login_failure_keeps_store_witness :
  let w := mkWorld (mkLocalStorage {[ "auth_token" := "abc" ]} false false) [] in
  let w' := snd (login local_env rejecting_net "ann@example.org" "wrong" w) in
  items (localStorage w') !! "auth_token" = Some "abc" /\
  length (sent w') = 1%nat.
Proof.
  intros w w'.
  destruct (login_failure_keeps_store local_env rejecting_net "ann@example.org" "wrong"
              w w'
              (mkJsError "Not authenticated" (JNum 401)
                 (JObj [("detail", JStr "Not authenticated")])))
    as (Hls & Hsent & _).
  - vm_compute. reflexivity.
  - rewrite Hls, Hsent. split; reflexivity.
Defined.

(** ** The token in the browser's store *)

(** What [setToken] does to a store that can be reached: nothing when the
    write throws, else it binds or removes the one key. *)
Lemma setToken_items token (w : World LocalStorage) :
  exists w', setToken token w = (Ok tt, w') /\
    sent w' = sent w /\
    denied (localStorage w') = denied (localStorage w) /\
    quota_exceeded (localStorage w') = quota_exceeded (localStorage w) /\
    (forall k, k <> "auth_token" ->
       items (localStorage w') !! k = items (localStorage w) !! k) /\
    (storage_works (localStorage w) ->
     items (localStorage w') !! "auth_token"
     = if truthy token then Some (to_string token) else None).
Proof.
  unfold setToken, eff_try, localStorage_setItem, localStorage_removeItem,
    storage_works.
  destruct w as [[m d q] log]. simpl.
  destruct (truthy token); destruct d; simpl;
    try (eexists; split; [reflexivity|]; simpl; repeat split; auto;
         intros [? ?]; discriminate).
  - destruct q; simpl; eexists; (split; [reflexivity|]); simpl; repeat split; auto.
    + intros [_ ?]. discriminate.
    + intros k Hk. apply lookup_insert_ne. congruence.
    + intros _. apply lookup_insert_eq.
  - eexists. split; [reflexivity|]. simpl. repeat split; auto.
    + intros k Hk. apply lookup_delete_ne. congruence.
    + intros _. apply lookup_delete_eq.
Qed.



Section StoreFrame.
Variable env : Env.
Variable net : list Request -> Request -> Result Response.

Lemma call_frame c (w : World LocalStorage) :
  let w' := snd (call env net c w) in
  denied (localStorage w') = denied (localStorage w) /\
  quota_exceeded (localStorage w') = quota_exceeded (localStorage w) /\
  forall k, k <> "auth_token" ->
    items (localStorage w') !! k = items (localStorage w) !! k.
Proof.
  destruct (writes_token c) eqn:Hc.
  - destruct c; try discriminate; simpl call.
    + destruct (login_run env net email password w)
        as [(e' & Hrun) | [(data & Hrun & _) | (data & token & w2 & Hrun & _ & _ & Hset)]];
        rewrite Hrun; simpl; auto.
      destruct (setToken_items token
                  (mkWorld (localStorage w)
                     (sent w ++ [login_request env email password])))
        as (w3 & Hs & _ & Hd & Hq & Hframe & _).
      rewrite Hs in Hset. inversion Hset; subst w3. auto.
    + unfold eff_bind, logout.
      destruct (setToken_items JNull w) as (w' & Hs & _ & Hd & Hq & Hframe & _).
      rewrite Hs. simpl. auto.
  - intros w'. subst w'. rewrite (call_storage env net c w Hc). auto.
Qed.

(** X8.  Through any sequence of calls, [login] and [logout] included,
    the client reads and writes the one key ["auth_token"]: every other
    key of the store keeps its value. *)
Theorem calls_keep_other_keys cs (w : World LocalStorage) k :
  k <> "auth_token" ->
  items (localStorage (calls env net cs w)) !! k = items (localStorage w) !! k.
Proof.
  intros Hk. revert w. induction cs as [|c cs IH]; intros w; simpl.
  - reflexivity.
  - rewrite IH. destruct (call_frame c w) as (_ & _ & Hframe). apply Hframe. exact Hk.
Qed.

End StoreFrame.

Lemma calls_keep_other_keys_witness :
  items (localStorage
           (calls local_env (login_ok_net (JStr "abc"))
              [CallLogin "ann@example.org" "pw"; CallMe; CallLogout]
              (mkWorld (mkLocalStorage {[ "theme" := "dark" ]} false false) [])))
  !! "theme" = Some "dark".
Proof.
  rewrite (calls_keep_other_keys local_env (login_ok_net (JStr "abc"))
             [CallLogin "ann@example.org" "pw"; CallMe; CallLogout]
             (mkWorld (mkLocalStorage {[ "theme" := "dark" ]} false false) [])
             "theme"); [reflexivity | discriminate].
Defined.

(** * Further properties of the application shell *)

(** ** Updating and deleting in the list *)

(** An entry whose properties can be read: anything but [null] and
    [undefined]. *)
Lemma prop_readable v k k' x : prop v k = Ok x -> exists y, prop v k' = Ok y.
Proof.
  destruct v; simpl; intros Hp; try discriminate; eauto.
Qed.

Lemma array_map_lookup f prev es :
  array_map f prev = Ok es ->
  length es = length prev /\
  forall i it, prev !! i = Some it ->
    exists it', f it = Ok it' /\ es !! i = Some it'.
Proof.
  revert es. induction prev as [|x rest IH]; intros es Hm; simpl in Hm.
  - inversion Hm; subst. split; [reflexivity|]. intros i it Hi. discriminate.
  - unfold mbind, Result_bind in Hm.
    destruct (f x) as [x'|] eqn:Hx; [|discriminate].
    destruct (array_map f rest) as [rest'|] eqn:Hrest; [|discriminate].
    inversion Hm; subst es. destruct (IH rest' eq_refl) as (Hlen & Hat).
    split; [simpl; congruence|].
    intros [|i] it Hi; simpl in Hi.
    + inversion Hi; subst. eauto.
    + apply Hat. exact Hi.
Qed.

Lemma array_map_total f prev :
  Forall (fun it => exists it', f it = Ok it') prev ->
  exists es, array_map f prev = Ok es.
Proof.
  induction 1 as [|x rest (x' & Hx) _ (rest' & Hrest)]; simpl; [eauto|].
  unfold mbind, Result_bind. rewrite Hx, Hrest. eauto.
Qed.

Lemma array_filter_readable id prev :
  Forall (fun it => exists id', prop it "id" = Ok id') prev ->
  array_filter (fun it => id' ← prop it "id"; Ok (negb (strict_eq id' id))) prev
  = Ok (List.filter
          (fun it => match prop it "id" with
                     | Ok id' => negb (strict_eq id' id)
                     | Throw _ => false
                     end) prev).
Proof.
  induction 1 as [|x rest (id' & Hx) _ IH]; simpl; [reflexivity|].
  unfold mbind, Result_bind in *. rewrite Hx, IH.
  destruct (negb (strict_eq id' id)); reflexivity.
Qed.

Section ListHandlers.
Context {St : Type} `{!Storage St}.
Variable env : Env.
Variable net : list Request -> Request -> Result Response.


(** X10.  [onUpdate] does nothing at all on a draft whose [id] is falsy:
    it sends no request and leaves every cell, the error included.  So an
    entry whose [id] is 0, the empty string or [null] can be loaded into
    the draft by select-edit but is never saved by [onUpdate]. *)
Theorem onUpdate_ignores_falsy_id i entry id (s : AppState) (w : World St) :
  entries s !! i = Some entry ->
  prop entry "id" = Ok id ->
  truthy id = false ->
  exists s1,
    dispatch env net (ClickEdit i) s w = (Ok s1, w) /\
    draft_id (draft s1) = id /\
    onUpdate env net s1 w = (Ok s1, w).
Proof.
  intros Hi Hid Hfalsy. simpl. rewrite Hi.
  unfold onSelectEdit, eff_bind, lift. rewrite Hid.
  destruct (prop_readable entry "id" "title" id Hid) as (t & ->).
  destruct (prop_readable entry "id" "content" id Hid) as (c & ->).
  eexists. split; [reflexivity|]. split; [reflexivity|].
  unfold onUpdate. simpl. rewrite Hfalsy. reflexivity.
Qed.


End ListHandlers.


Lemma onUpdate_ignores_falsy_id_witness :
  let zero := JObj [("id", JNum 0); ("title", JStr "Zero")] in
  exists s1,
    dispatch local_env accepting_net (ClickEdit 0) (loaded JNull [zero])
      (mkWorld fresh_store []) = (Ok s1, mkWorld fresh_store []) /\
    onUpdate local_env accepting_net s1 (mkWorld fresh_store [])
    = (Ok s1, mkWorld fresh_store []).
Proof.
  intros zero.
  destruct (onUpdate_ignores_falsy_id local_env accepting_net 0 zero (JNum 0)
              (loaded JNull [zero]) (mkWorld fresh_store [])
              eq_refl eq_refl eq_refl) as (s1 & Hsel & _ & Hupd).
  exists s1. split; assumption.
Defined.


Section OneRequest.
Context {St : Type} `{!Storage St}.
Variable env : Env.
Variable net : list Request -> Request -> Result Response.

(** The client call of a mutation: one request, then [handleResponse]. *)
Lemma client_call_run m (s : AppState) (w : World St) :
  exists req,
    client_call env net m s w
    = (net (sent w) req ≫= handleResponse,
       mkWorld (localStorage w) (sent w ++ [req])) /\
    method req = match m with
                 | Create => "POST"
                 | Update => "PUT"
                 | Delete _ => "DELETE"
                 end.
Proof.
  destruct m as [| |id]; simpl client_call.
  - destruct (request_run net true
                (fun h => mkRequest (API_BASE env +:+ "/entries") "POST" h
                            (Some (JObj [("title", draft_title (draft s));
                                         ("content", draft_content (draft s))]))
                            "include" "cors") w) as (h & _ & Hrun).
    eexists. split; [exact Hrun | reflexivity].
  - destruct (request_run net true
                (fun h => mkRequest
                            (API_BASE env +:+ "/entries/" +:+ to_string (draft_id (draft s)))
                            "PUT" h
                            (Some (JObj [("title", draft_title (draft s));
                                         ("content", draft_content (draft s))]))
                            "include" "cors") w) as (h & _ & Hrun).
    eexists. split; [exact Hrun | reflexivity].
  - destruct (request_run net true
                (fun h => mkRequest (API_BASE env +:+ "/entries/" +:+ to_string id)
                            "DELETE" h None "include" "cors") w) as (h & _ & Hrun).
    eexists. split; [exact Hrun | reflexivity].
Qed.

(** X12.  A create, an update of a draft with a truthy [id], and a
    delete each send exactly one request, a POST, a PUT and a DELETE,
    whether the call succeeds or fails and whether the handler completes
    or not: nothing is retried and the list is not fetched again.  The
    token store is left as it was. *)
Theorem mutation_sends_one_request m (s : AppState) (w : World St) :
  (m = Update -> truthy (draft_id (draft s)) = true) ->
  exists req,
    sent (snd (handler env net m s w)) = (sent w ++ [req])%list /\
    method req = match m with
                 | Create => "POST"
                 | Update => "PUT"
                 | Delete _ => "DELETE"
                 end /\
    localStorage (snd (handler env net m s w)) = localStorage w.
Proof.
  intros Hmode.
  destruct (client_call_run m (setErr "" s) w) as (req & Hrun & Hmethod).
  exists req. split; [|split; [exact Hmethod|]];
    destruct m as [| |id]; simpl in Hrun; simpl handler.
  - unfold onCreate, eff_try, eff_bind. simpl. rewrite Hrun.
    destruct (net (sent w) req ≫= handleResponse); reflexivity.
  - unfold onUpdate. rewrite (Hmode eq_refl). simpl.
    unfold eff_try, eff_bind. simpl. rewrite Hrun.
    destruct (net (sent w) req ≫= handleResponse); simpl; [|reflexivity].
    unfold lift. destruct (array_map _ _); reflexivity.
  - unfold onDelete, eff_try, eff_bind. simpl. rewrite Hrun.
    destruct (net (sent w) req ≫= handleResponse); simpl; [|reflexivity].
    unfold lift. destruct (array_filter _ _); reflexivity.
  - unfold onCreate, eff_try, eff_bind. simpl. rewrite Hrun.
    destruct (net (sent w) req ≫= handleResponse); reflexivity.
  - unfold onUpdate. rewrite (Hmode eq_refl). simpl.
    unfold eff_try, eff_bind. simpl. rewrite Hrun.
    destruct (net (sent w) req ≫= handleResponse); simpl; [|reflexivity].
    unfold lift. destruct (array_map _ _); reflexivity.
  - unfold onDelete, eff_try, eff_bind. simpl. rewrite Hrun.
    destruct (net (sent w) req ≫= handleResponse); simpl; [|reflexivity].
    unfold lift. destruct (array_filter _ _); reflexivity.
Qed.

End OneRequest.

Lemma mutation_sends_one_request_witness :
  length (sent (snd (handler local_env unreachable_net Update
                       (mkAppState JNull [monday] false ""
                          (mkDraft (JNum 1) (JStr "Monday") (JStr "Storm.")))
                       (mkWorld fresh_store [])))) = 1%nat.
Proof.
  destruct (mutation_sends_one_request local_env unreachable_net Update
              (mkAppState JNull [monday] false ""
                 (mkDraft (JNum 1) (JStr "Monday") (JStr "Storm.")))
              (mkWorld fresh_store [])) as (req & Hsent & _).
  - reflexivity.
  - rewrite Hsent. reflexivity.
Defined.

(** ** Loading the list and the profile *)

Section Loading.
Context {St : Type} `{!Storage St}.
Variable env : Env.
Variable net : list Request -> Request -> Result Response.

Lemma listEntries_run (w : World St) :
  exists h,
    buildHeaders true w = (Ok h, w) /\
    listEntries env net w
    = (net (sent w) (mkRequest (API_BASE env +:+ "/entries") "GET" h None
                       "include" "cors") ≫= handleResponse,
       mkWorld (localStorage w)
         (sent w ++ [mkRequest (API_BASE env +:+ "/entries") "GET" h None
                       "include" "cors"])).
Proof.
  exact (request_run net true
           (fun h => mkRequest (API_BASE env +:+ "/entries") "GET" h None
                       "include" "cors") w).
Qed.

Lemma me_run (w : World St) :
  exists h,
    buildHeaders true w = (Ok h, w) /\
    me env net w
    = (net (sent w) (mkRequest (API_BASE env +:+ "/auth/me") "GET" h None
                       "include" "cors") ≫= handleResponse,
       mkWorld (localStorage w)
         (sent w ++ [mkRequest (API_BASE env +:+ "/auth/me") "GET" h None
                       "include" "cors"])).
Proof.
  exact (request_run net true
           (fun h => mkRequest (API_BASE env +:+ "/auth/me") "GET" h None
                       "include" "cors") w).
Qed.

(** X13.  A bare array and an object whose [items] is that array load
    the same list; an answer that is neither an array nor [null] and has
    no truthy [items] loads the empty list.  In each case the handler
    completes with the error cleared, [loading] off, and the user and the
    draft as they were. *)
Theorem loadEntries_normalizes (s : AppState) (w w' : World St) list es :
  listEntries env net w = (Ok list, w') ->
  list = JArr es \/
  (exists fields, list = JObj fields /\
                  lookup_field "items" fields = Some (JArr es)) \/
  (es = [] /\ exists items, (forall l, list <> JArr l) /\
                           prop list "items" = Ok items /\ truthy items = false) ->
  loadEntries env net s w
  = (Ok (mkAppState (user s) es false "" (draft s)), w').
Proof.
  intros Hcall Hshape. unfold loadEntries, eff_try, eff_bind. simpl.
  rewrite Hcall. unfold lift, eff_ret.
  destruct Hshape as [-> | [(fields & -> & Hitems) | (-> & items & Hna & Hp & Hf)]].
  - reflexivity.
  - simpl. rewrite Hitems. reflexivity.
  - assert (Hl : listed list = Ok (JArr [])).
    { unfold listed. destruct list; try (rewrite Hp; simpl; unfold js_or;
        rewrite Hf; reflexivity). exfalso. eapply Hna. reflexivity. }
    rewrite Hl. reflexivity.
Qed.

(** X14.  When the list call throws, or answers [null], [loadEntries]
    completes with the list, the user and the draft as they were,
    [loading] off, and an error text that is never empty: the message of
    the error, or ["Failed to load entries"] when that is empty. *)
Theorem loadEntries_failure (s : AppState) (w w' : World St) :
  (exists e, listEntries env net w = (Throw e, w')) \/
  listEntries env net w = (Ok JNull, w') ->
  exists s',
    loadEntries env net s w = (Ok s', w') /\
    entries s' = entries s /\
    loading s' = false /\
    err s' <> "" /\
    (forall e, listEntries env net w = (Throw e, w') ->
       err s' = (if String.eqb (message e) "" then "Failed to load entries"
                 else message e)) /\
    user s' = user s /\
    draft s' = draft s.
Proof.
  intros [(e & Hcall) | Hcall]; unfold loadEntries, eff_try, eff_bind; simpl;
    rewrite Hcall; unfold lift, eff_ret; simpl;
    (eexists; split; [reflexivity|]); simpl; repeat split.
  - apply str_or_nonempty. discriminate.
  - intros e' He'. inversion He'; subst. reflexivity.
  - discriminate.
  - intros e' He'. discriminate.
Qed.

Lemma loadEntries_world (s : AppState) (w : World St) :
  exists h,
    buildHeaders true w = (Ok h, w) /\
    snd (loadEntries env net s w)
    = mkWorld (localStorage w)
        (sent w ++ [mkRequest (API_BASE env +:+ "/entries") "GET" h None
                      "include" "cors"]).
Proof.
  destruct (listEntries_run w) as (h & Hh & Hrun). exists h. split; [exact Hh|].
  unfold loadEntries, eff_try, eff_bind. simpl. rewrite Hrun.
  destruct (net (sent w) _ ≫= handleResponse) as [list|e]; simpl; [|reflexivity].
  unfold lift. destruct (listed list) as [value|e]; simpl; [|reflexivity].
  destruct value; reflexivity.
Qed.

(** X15.  Whatever the answer, [loadEntries] sends exactly one request,
    the GET of the list under the headers of the moment; and whenever it
    completes, [loading] is off again and the user and the draft are
    untouched. *)
Theorem loadEntries_settles (s : AppState) (w : World St) :
  exists h,
    buildHeaders true w = (Ok h, w) /\
    snd (loadEntries env net s w)
    = mkWorld (localStorage w)
        (sent w ++ [mkRequest (API_BASE env +:+ "/entries") "GET" h None
                      "include" "cors"]) /\
    forall s', fst (loadEntries env net s w) = Ok s' ->
      loading s' = false /\ user s' = user s /\ draft s' = draft s.
Proof.
  destruct (loadEntries_world s w) as (h & Hh & Hw). exists h.
  split; [exact Hh|]. split; [exact Hw|]. clear Hw.
  unfold loadEntries, eff_try, eff_bind. simpl.
  destruct (listEntries env net w) as [[list|e] w1]; simpl.
  - unfold lift. destruct (listed list) as [value|e]; simpl.
    + destruct value; simpl; intros s' Hs'; inversion Hs'; subst; repeat split.
    + intros s' Hs'. inversion Hs'; subst. repeat split.
  - intros s' Hs'. inversion Hs'; subst. repeat split.
Qed.

(** X16.  [loadMe] always completes and never shows an error: the error
    text is cleared, the list, the draft and [loading] are untouched, and
    [user] is the profile when the call returned one and is unchanged
    when the call threw. *)
Theorem loadMe_silent (s : AppState) (w : World St) :
  exists s',
    loadMe env net s w = (Ok s', snd (me env net w)) /\
    err s' = "" /\
    entries s' = entries s /\
    draft s' = draft s /\
    loading s' = loading s /\
    user s' = match fst (me env net w) with
              | Ok profile => profile
              | Throw _ => user s
              end.
Proof.
  unfold loadMe, eff_try, eff_bind. simpl.
  destruct (me env net w) as [[profile|e] w1]; simpl;
    eexists; (split; [reflexivity|]); repeat split.
Qed.

End Loading.

Lemma loadEntries_normalizes_witness :
  let page := JObj [("items", JArr [monday; tuesday]); ("total", JNum 2)] in
  let bare_net := fun (_ : list Request) (_ : Request) =>
    Ok (mkResponse 200 "OK" (Some "application/json") (Ok (JArr [monday; tuesday])) (Ok "")) in
  let page_net := fun (_ : list Request) (_ : Request) =>
    Ok (mkResponse 200 "OK" (Some "application/json") (Ok page) (Ok "")) in
  fst (loadEntries local_env bare_net (loaded (JStr "ann") [wednesday])
         (mkWorld fresh_store []))
  = fst (loadEntries local_env page_net (loaded (JStr "ann") [wednesday])
           (mkWorld fresh_store [])).
Proof.
  intros page bare_net page_net.
  rewrite (loadEntries_normalizes local_env bare_net (loaded (JStr "ann") [wednesday])
             (mkWorld fresh_store [])
             (snd (listEntries local_env bare_net (mkWorld fresh_store [])))
             (JArr [monday; tuesday]) [monday; tuesday]);
    [|vm_compute; reflexivity | left; reflexivity].
  rewrite (loadEntries_normalizes local_env page_net (loaded (JStr "ann") [wednesday])
             (mkWorld fresh_store [])
             (snd (listEntries local_env page_net (mkWorld fresh_store [])))
             page [monday; tuesday]);
    [reflexivity | vm_compute; reflexivity |].
  right. left. eexists. split; reflexivity.
Defined.

Lemma loadEntries_failure_witness :
  exists s' w',
    loadEntries local_env rejecting_net (loaded (JStr "ann") [monday])
      (mkWorld fresh_store []) = (Ok s', w') /\
    entries s' = [monday] /\ err s' = "Not authenticated" /\ loading s' = false.
Proof.
  destruct (loadEntries_failure local_env rejecting_net (loaded (JStr "ann") [monday])
              (mkWorld fresh_store [])
              (snd (listEntries local_env rejecting_net (mkWorld fresh_store []))))
    as (s' & Hl & Hes & Hld & _ & Herr & _).
  - left. eexists. vm_compute. reflexivity.
  - exists s'. eexists. split; [exact Hl|]. split; [exact Hes|]. split; [|exact Hld].
    rewrite (Herr (mkJsError "Not authenticated" (JNum 401)
                     (JObj [("detail", JStr "Not authenticated")])));
      [reflexivity | vm_compute; reflexivity].
Defined.

(** ** Signing in, signing out, registering *)

Lemma strict_eq_primitive a b :
  match b with JArr _ | JObj _ => False | _ => True end ->
  strict_eq a b = true -> a = b.
Proof.
  destruct b; intros Hb; try destruct Hb; destruct a; simpl; try discriminate;
    try reflexivity; intros Heq.
  - apply Bool.eqb_prop in Heq. congruence.
  - apply Z.eqb_eq in Heq. congruence.
  - apply String.eqb_eq in Heq. congruence.
Qed.

Lemma same_value_truthy a b : same_value a b = true -> truthy a = truthy b.
Proof.
  unfold same_value. intros Hs.
  assert (a = b) as ->; [|reflexivity].
  destruct b; try discriminate; apply strict_eq_primitive; auto.
Qed.

Section Signing.
Context {St : Type} `{!Storage St}.
Variable env : Env.
Variable net : list Request -> Request -> Result Response.

(** Coming from a falsy [user], the effect loads the list exactly when
    the new [user] is truthy. *)
Lemma user_effect_from_falsy before (s : AppState) :
  truthy before = false ->
  user_effect env net before s
  = (if truthy (user s) then loadEntries env net s else eff_ret s).
Proof.
  intros Hb. unfold user_effect. destruct (same_value before (user s)) eqn:Hs.
  - apply same_value_truthy in Hs. rewrite <- Hs, Hb. reflexivity.
  - reflexivity.
Qed.

(** X17.  When the login call throws, [onLogin] completes with the
    error's message shown, or ["Login failed"] when it is empty; the
    profile is not fetched, and the user, the view and both forms are as
    they were. *)
Theorem onLogin_failure (sh : Shell) (w w' : World St) e :
  login env net (login_email (loginForm sh)) (login_password (loginForm sh)) w
  = (Throw e, w') ->
  exists sh',
    onLogin env net sh w = (Ok sh', w') /\
    err (app sh') = (if String.eqb (message e) "" then "Login failed" else message e) /\
    err (app sh') <> "" /\
    user (app sh') = user (app sh) /\
    entries (app sh') = entries (app sh) /\
    authView sh' = authView sh /\
    loginForm sh' = loginForm sh /\
    registerForm sh' = registerForm sh /\
    sent w' = (sent w ++ [login_request env (login_email (loginForm sh))
                            (login_password (loginForm sh))])%list.
Proof.
  intros Hlogin. unfold onLogin, eff_try, eff_bind. rewrite Hlogin.
  eexists. split; [reflexivity|]. simpl. repeat split.
  - apply str_or_nonempty. discriminate.
  - destruct (login_run env net (login_email (loginForm sh))
                (login_password (loginForm sh)) w)
      as [(e' & Hrun) | [(data & Hrun & _) | (data & token & w2 & Hrun & _)]];
      rewrite Hrun in Hlogin; inversion Hlogin; subst. reflexivity.
Qed.

(** X18.  When the login call returns, [onLogin] fetches the profile
    next and completes with no error shown, whether or not the profile
    call succeeds: a failure there is silent and leaves [user] as it
    was. *)
Theorem onLogin_profile_silent (sh : Shell) (w w1 : World St) data :
  login env net (login_email (loginForm sh)) (login_password (loginForm sh)) w
  = (Ok data, w1) ->
  exists sh',
    onLogin env net sh w = (Ok sh', snd (me env net w1)) /\
    err (app sh') = "" /\
    user (app sh') = match fst (me env net w1) with
                     | Ok profile => profile
                     | Throw _ => user (app sh)
                     end /\
    entries (app sh') = entries (app sh) /\
    authView sh' = authView sh /\
    loginForm sh' = loginForm sh.
Proof.
  intros Hlogin. unfold onLogin, eff_try, eff_bind. rewrite Hlogin.
  unfold loadMe, eff_try, eff_bind. simpl.
  destruct (me env net w1) as [[profile|e] w2]; simpl;
    eexists; (split; [reflexivity|]); repeat split.
Qed.

(** X19.  On mount, a profile call that throws leaves the application
    in its first state, signed out and with no error shown, after that
    one request; a profile call that returns a truthy profile is followed
    by one load of the list, and one only, for that user. *)
Theorem onMount_loads_once (w : World St) :
  (forall e w1, me env net w = (Throw e, w1) ->
     onMount env net w = (Ok initial, w1)) /\
  (forall profile w1, me env net w = (Ok profile, w1) ->
     truthy profile = true ->
     onMount env net w = loadEntries env net (setUser profile initial) w1 /\
     exists h1 h2,
       sent (snd (onMount env net w))
       = (sent w ++ [mkRequest (API_BASE env +:+ "/auth/me") "GET" h1 None
                       "include" "cors";
                     mkRequest (API_BASE env +:+ "/entries") "GET" h2 None
                       "include" "cors"])%list).
Proof.
  split.
  - intros e w1 Hme. unfold onMount, eff_bind, loadMe, eff_try, eff_bind. simpl.
    rewrite Hme. reflexivity.
  - intros profile w1 Hme Hp.
    assert (Hmount : onMount env net w
                     = loadEntries env net (setUser profile initial) w1).
    { unfold onMount, eff_bind, loadMe, eff_try, eff_bind. simpl.
      rewrite Hme. unfold eff_ret. simpl.
      rewrite user_effect_from_falsy by reflexivity. simpl. rewrite Hp. reflexivity. }
    split; [exact Hmount|]. rewrite Hmount.
    destruct (me_run env net w) as (h1 & _ & Hrun1). rewrite Hrun1 in Hme.
    inversion Hme as [[Hout Hw1]].
    destruct (loadEntries_world env net (setUser profile initial) w1)
      as (h2 & _ & Hrun2).
    exists h1, h2. rewrite Hw1, Hrun2, <- Hw1. simpl. rewrite <- app_assoc. reflexivity.
Qed.

(** X20.  Submitting the login form while signed out loads the list
    exactly when the handler ends with a truthy [user]: then one GET of
    the list follows, under the headers of the moment; otherwise nothing
    more is sent and the state is the one [onLogin] left. *)
Theorem submitLogin_loads_list (sh sh' : Shell) (w w1 : World St) :
  truthy (user (app sh)) = false ->
  onLogin env net sh w = (Ok sh', w1) ->
  (truthy (user (app sh')) = true ->
   exists h,
     buildHeaders true w1 = (Ok h, w1) /\
     snd (submitLogin env net sh w)
     = mkWorld (localStorage w1)
         (sent w1 ++ [mkRequest (API_BASE env +:+ "/entries") "GET" h None
                        "include" "cors"])) /\
  (truthy (user (app sh')) = false ->
   submitLogin env net sh w = (Ok sh', w1)).
Proof.
  intros Hout Hlogin. unfold submitLogin, eff_bind. rewrite Hlogin.
  rewrite user_effect_from_falsy by exact Hout. split; intros Hu; rewrite Hu.
  - destruct (loadEntries_world env net (app sh') w1) as (h & Hh & Hw).
    exists h. split; [exact Hh|]. rewrite <- Hw.
    destruct (loadEntries env net (app sh') w1) as [[s|e] w2]; reflexivity.
  - unfold eff_ret. destruct sh'. reflexivity.
Qed.

(** X21.  Whatever the answer to [register], [onRegister] completes
    without signing anyone in: the token store and [user] are as they
    were.  On success it switches to the login view with the e-mail and
    password just registered filled in and no error shown; on failure it
    stays on its view, keeps the login form, and shows the error's
    message, or ["Registration failed"] when that is empty. *)
Theorem onRegister_outcome (sh : Shell) (w : World St) :
  exists outcome sh',
    register env net (register_email (registerForm sh))
      (register_password (registerForm sh)) (register_name (registerForm sh)) w
    = (outcome, snd (onRegister env net sh w)) /\
    fst (onRegister env net sh w) = Ok sh' /\
    localStorage (snd (onRegister env net sh w)) = localStorage w /\
    user (app sh') = user (app sh) /\
    registerForm sh' = registerForm sh /\
    match outcome with
    | Ok _ =>
        authView sh' = LoginView /\
        loginForm sh' = mkLoginForm (register_email (registerForm sh))
                          (register_password (registerForm sh)) /\
        err (app sh') = ""
    | Throw e =>
        authView sh' = authView sh /\
        loginForm sh' = loginForm sh /\
        err (app sh')
        = (if String.eqb (message e) "" then "Registration failed" else message e)
    end.
Proof.
  destruct (request_run net false
              (fun h => mkRequest (API_BASE env +:+ "/auth/register") "POST" h
                          (Some (JObj [("email", JStr (register_email (registerForm sh)));
                                       ("password", JStr (register_password (registerForm sh)));
                                       ("name", JStr (register_name (registerForm sh)))]))
                          "include" "cors") w) as (h & _ & Hrun).
  unfold onRegister, eff_try, eff_bind.
  unfold register in *. rewrite Hrun.
  destruct (net (sent w) _ ≫= handleResponse) as [data|e]; simpl;
    do 2 eexists; repeat split.
Qed.

End Signing.

Section BrowserSession.
Variable env : Env.
Variable net : list Request -> Request -> Result Response.

Lemma login_sent email password (w : World LocalStorage) outcome w1 :
  login env net email password w = (outcome, w1) ->
  sent w1 = (sent w ++ [login_request env email password])%list.
Proof.
  intros Hlogin.
  destruct (login_run env net email password w)
    as [(e' & Hrun) | [(data & Hrun & _) | (data & token & w2 & Hrun & _ & _ & Hset)]];
    rewrite Hrun in Hlogin; inversion Hlogin; subst; try reflexivity.
  destruct (setToken_total token
              (mkWorld (localStorage w) (sent w ++ [login_request env email password])))
    as (w3 & Hs & Hsent).
  rewrite Hs in Hset. inversion Hset; subst w3. exact Hsent.
Qed.

(** X22.  After a login that returns a non-empty [access_token] t into
    a working store, [onLogin] sends exactly two requests: the POST of
    the credentials, without Authorization header, and then the GET of
    the profile, which already carries ["Bearer " + t]. *)
Theorem onLogin_profile_bearer (sh : Shell) (w w1 : World LocalStorage) data t :
  storage_works (localStorage w) ->
  login env net (login_email (loginForm sh)) (login_password (loginForm sh)) w
  = (Ok data, w1) ->
  prop data "access_token" = Ok (JStr t) ->
  t <> "" ->
  sent (snd (onLogin env net sh w))
  = (sent w ++
     [login_request env (login_email (loginForm sh)) (login_password (loginForm sh));
      mkRequest (API_BASE env +:+ "/auth/me") "GET"
        (<[ "Authorization" := "Bearer " +:+ t ]> json_headers) None
        "include" "cors"])%list.
Proof.
  intros Hw Hlogin Hp Ht.
  pose proof (login_stores_token env net _ _ _ _ _ _ Hw Hlogin Hp Ht) as Hls.
  pose proof (login_sent _ _ _ _ _ Hlogin) as Hsent.
  unfold onLogin, eff_try, eff_bind. rewrite Hlogin.
  unfold loadMe, eff_try, eff_bind. simpl.
  destruct (me_run env net w1) as (h & Hh & Hrun).
  assert (Hhead : h = <[ "Authorization" := "Bearer " +:+ t ]> json_headers).
  { rewrite (buildHeaders_token w1 (Some t)) in Hh.
    - inversion Hh as [Heq]. destruct (String.eqb_spec t ""); [congruence|reflexivity].
    - rewrite getToken_items; rewrite Hls; simpl; [|reflexivity].
      rewrite lookup_insert_eq. reflexivity. }
  rewrite Hrun. subst h.
  destruct (net (sent w1) _ ≫= handleResponse); simpl;
    rewrite Hsent, <- app_assoc; f_equal.
Qed.

(** X23.  [onLogout] always completes and sends nothing: it clears the
    stored token, the user and the list, so that the [user] effect loads
    nothing afterwards.  The draft, the error text and [loading] are not
    reset. *)
Theorem onLogout_clears (s : AppState) (w : World LocalStorage) :
  let s' := mkAppState JNull [] (loading s) (err s) (draft s) in
  exists w',
    onLogout s w = (Ok s', w') /\
    sent w' = sent w /\
    getToken w' = (Ok None, w') /\
    user_effect env net (user s) s' w' = (Ok s', w').
Proof.
  intros s'.
  assert (Heffect : forall w', user_effect env net (user s) s' w' = (Ok s', w')).
  { intros w'. unfold user_effect. simpl.
    destruct (strict_eq (user s) JNull); reflexivity. }
  unfold onLogout, eff_bind, logout, setToken, eff_try, localStorage_removeItem.
  simpl. destruct (denied (localStorage w)) eqn:Hd.
  - exists w. split; [reflexivity|]. split; [reflexivity|]. split; [|apply Heffect].
    unfold getToken, eff_try, localStorage_getItem. simpl. rewrite Hd. reflexivity.
  - eexists. split; [reflexivity|]. split; [reflexivity|]. split; [|apply Heffect].
    rewrite getToken_items; simpl; [|reflexivity].
    rewrite lookup_delete_eq. reflexivity.
Qed.

End BrowserSession.

Lemma onLogin_failure_witness :
  let sh := mkShell initial LoginView (mkLoginForm "ann@example.org" "wrong")
              (mkRegisterForm "" "" "") in
  exists sh' w',
    onLogin local_env rejecting_net sh (mkWorld fresh_store []) = (Ok sh', w') /\
    err (app sh') = "Not authenticated" /\ user (app sh') = JNull /\
    length (sent w') = 1%nat.
Proof.
  intros sh.
  destruct (onLogin_failure local_env rejecting_net sh (mkWorld fresh_store [])
              (snd (login local_env rejecting_net "ann@example.org" "wrong"
                      (mkWorld fresh_store [])))
              (mkJsError "Not authenticated" (JNum 401)
                 (JObj [("detail", JStr "Not authenticated")])))
    as (sh' & Hl & Herr & _ & Hu & _ & _ & _ & _ & Hsent).
  - vm_compute. reflexivity.
  - exists sh'. eexists. split; [exact Hl|]. split; [exact Herr|].
    split; [exact Hu|]. rewrite Hsent. reflexivity.
Defined.

Lemma onLogin_profile_silent_witness :
  let sh := mkShell initial LoginView (mkLoginForm "ann@example.org" "pw")
              (mkRegisterForm "" "" "") in
  exists sh' w',
    onLogin local_env (login_ok_net (JStr "abc")) sh (mkWorld denied_store [])
    = (Ok sh', w') /\
    err (app sh') = "".
Proof.
  intros sh.
  destruct (onLogin_profile_silent local_env (login_ok_net (JStr "abc")) sh
              (mkWorld denied_store [])
              (snd (login local_env (login_ok_net (JStr "abc")) "ann@example.org" "pw"
                      (mkWorld denied_store [])))
              (JObj [("access_token", JStr "abc"); ("token_type", JStr "bearer")]))
    as (sh' & Hl & Herr & _).
  - vm_compute. reflexivity.
  - exists sh'. eexists. split; [exact Hl | exact Herr].
Defined.

Lemma onLogin_profile_bearer_witness :
  let sh := mkShell initial LoginView (mkLoginForm "ann@example.org" "pw")
              (mkRegisterForm "" "" "") in
  exists r1 r2,
    sent (snd (onLogin local_env (login_ok_net (JStr "abc")) sh (mkWorld fresh_store [])))
    = [r1; r2] /\
    headers r1 !! "Authorization" = None /\
    headers r2 !! "Authorization" = Some "Bearer abc".
Proof.
  intros sh. do 2 eexists.
  rewrite (onLogin_profile_bearer local_env (login_ok_net (JStr "abc")) sh
             (mkWorld fresh_store [])
             (snd (login local_env (login_ok_net (JStr "abc")) "ann@example.org" "pw"
                     (mkWorld fresh_store [])))
             (JObj [("access_token", JStr "abc"); ("token_type", JStr "bearer")])
             "abc").
  - split; [reflexivity|]. split; reflexivity.
  - split; reflexivity.
  - vm_compute. reflexivity.
  - reflexivity.
  - discriminate.
Defined.

Lemma submitLogin_loads_list_witness :
  let sh' := setApp (mkAppState ann [] false "" empty_draft) signed_out in
  exists h,
    sent (snd (submitLogin local_env session_net signed_out (mkWorld fresh_store [])))
    = (sent (snd (onLogin local_env session_net signed_out (mkWorld fresh_store [])))
       ++ [mkRequest "http://localhost:3001/entries" "GET" h None "include" "cors"])%list /\
    h !! "Authorization" = Some "Bearer abc".
Proof.
  intros sh'.
  destruct (submitLogin_loads_list local_env session_net signed_out sh'
              (mkWorld fresh_store [])
              (snd (onLogin local_env session_net signed_out (mkWorld fresh_store []))))
    as (Hload & _).
  - reflexivity.
  - vm_compute. reflexivity.
  - destruct (Hload eq_refl) as (h & Hh & Hw). exists h. rewrite Hw. split.
    + reflexivity.
    + vm_compute in Hh. inversion Hh. reflexivity.
Defined.

(** The whole of a sign-in against a backend with one session: three
    requests, and the page of entries on screen. *)
Example submitLogin_session :
  let (r, w) := submitLogin local_env session_net signed_out (mkWorld fresh_store []) in
  r = Ok (setApp (mkAppState ann [monday; tuesday] false "" empty_draft) signed_out) /\
  List.map (fun req => (method req, url req)) (sent w)
  = [("POST", "http://localhost:3001/auth/login");
     ("GET", "http://localhost:3001/auth/me");
     ("GET", "http://localhost:3001/entries")].
Proof. vm_compute. split; reflexivity. Qed.

(** Without a stored token the mount ends signed out, silently. *)
Example onMount_signed_out :
  fst (onMount local_env session_net (mkWorld fresh_store [])) = Ok initial.
Proof. vm_compute. reflexivity. Qed.

(** ** When a request carries the token *)

Section Authorization.
Context {St : Type} `{!Storage St}.

(** X24.  The headers [buildHeaders] returns hold an Authorization
    header exactly when they are built for an authorized request and
    [getToken] returns a non-empty string t, and then its value is
    ["Bearer " + t]: an unauthorized request never carries the stored
    token, and a stored empty string counts as no token. *)
Theorem buildHeaders_authorization_iff authorized (w : World St) h v :
  buildHeaders authorized w = (Ok h, w) ->
  h !! "Authorization" = Some v <->
  authorized = true /\
  exists t, getToken w = (Ok (Some t), w) /\ t <> "" /\ v = "Bearer " +:+ t.
Proof.
  intros Hh. destruct authorized.
  - destruct (getToken_total w) as (token & Hg).
    rewrite (buildHeaders_token w token Hg) in Hh. inversion Hh; subst h. clear Hh.
    destruct token as [t|].
    + destruct (String.eqb_spec t "") as [-> | Hne].
      * split; [discriminate|]. intros (_ & t' & Hg' & Hne' & _).
        rewrite Hg in Hg'. inversion Hg'; subst t'. congruence.
      * rewrite lookup_insert_eq. split.
        -- intros Hv. inversion Hv; subst v. split; [reflexivity|]. eauto.
        -- intros (_ & t' & Hg' & _ & ->). rewrite Hg in Hg'.
           inversion Hg'; subst t'. reflexivity.
    + split; [discriminate|]. intros (_ & t' & Hg' & _).
      rewrite Hg in Hg'. discriminate.
  - rewrite buildHeaders_false in Hh. inversion Hh; subst h.
    split; [discriminate|]. intros (Hfalse & _). discriminate.
Qed.

End Authorization.

Lemma buildHeaders_authorization_iff_witness :
  let w := mkWorld (mkLocalStorage {[ "auth_token" := "abc" ]} false false) [] in
  buildHeaders true w
  = (Ok (<[ "Authorization" := "Bearer abc" ]> json_headers), w) /\
  (<[ "Authorization" := "Bearer abc" ]> json_headers) !! "Authorization"
  = Some "Bearer abc".
Proof.
  intros w.
  assert (Hb : buildHeaders true w
               = (Ok (<[ "Authorization" := "Bearer abc" ]> json_headers), w))
    by (vm_compute; reflexivity).
  split; [exact Hb|].
  apply (proj2 (buildHeaders_authorization_iff true w
                  (<[ "Authorization" := "Bearer abc" ]> json_headers)
                  "Bearer abc" Hb)).
  split; [reflexivity|]. exists "abc". split; [vm_compute; reflexivity|].
  split; [discriminate | reflexivity].
Defined.
